(** * DnCNN denoiser trainer: a shallow embedding of [train.py]

    The development follows the training script top to bottom: the patch
    store accessor ([Dataset]), the batch quality metric ([psnr_of_batch]),
    the two per-epoch batch loops, the checkpoint bookkeeping and [main].

    Conventions.
    - Tensor entries are floating-point numbers in the script; here they are
      exact rationals ([Q]), so every equation between numbers is stated up
      to [Qeq] and says which arithmetic expression the script evaluates,
      not how it rounds.
    - A batch tensor is the list of its examples and an example is the flat
      list of its entries; the first axis of the script's tensors is the
      list itself.
    - Python exceptions are values of [exn]; a computation that can raise
      returns a [result].
    - The network, autograd, Adam, the plateau scheduler and the library
      PSNR are external collaborators: they are fields of a [Backend]
      record and every theorem is stated for an arbitrary backend.
    - Random draws (key shuffle, per-epoch index permutation, Gaussian
      samples) are read from an explicit [entropy] oracle.
    - Console output, the TensorBoard writer and GPU placement touch none of
      the state the theorems speak about and are left out. *)

From Stdlib Require Import Ascii String.
From Stdlib Require Import QArith Qminmax List Bool Arith Lia Permutation.
Import ListNotations.
Close Scope Q_scope.

Set Implicit Arguments.

(** ** Exceptions and fallible computations *)

Inductive exn : Type :=
| AssertionError (msg : string)
| IndexError
| KeyError (key : string)
| OSError (path : string)
| ValueError
| ZeroDivisionError
| RuntimeError.

Inductive result (A : Type) : Type :=
| Ok (a : A)
| Raise (e : exn).

Arguments Ok {A} a.
Arguments Raise {A} e.

Definition bind {A B : Type} (c : result A) (k : A -> result B) : result B :=
  match c with
  | Ok a => k a
  | Raise e => Raise e
  end.

Notation "x <- c ;; k" := (bind c (fun x => k))
  (at level 61, c at next level, right associativity).
Notation "' pat <- c ;; k" := (bind c (fun x => match x with pat => k end))
  (at level 61, pat pattern, c at next level, right associativity).

(** [seq[i]] on a Python list or on the first axis of an array. *)
Definition index {A : Type} (l : list A) (i : nat) : result A :=
  match nth_error l i with
  | Some a => Ok a
  | None => Raise IndexError
  end.

(** [x / n] where [n] is a Python [int] counter: raises on [n = 0]. *)
Definition of_nat (n : nat) : Q := inject_Z (Z.of_nat n).

Definition py_div (x : Q) (n : nat) : result Q :=
  match n with
  | O => Raise ZeroDivisionError
  | S _ => Ok (x / of_nat n)%Q
  end.

Definition py_assert (cond : bool) (msg : string) : result unit :=
  if cond then Ok tt else Raise (AssertionError msg).

(** Python's [a < b] on numbers. *)
Definition Qltb (a b : Q) : bool := negb (Qle_bool b a).

(** Monadic map over a list, left to right. *)
Fixpoint mapM {A B : Type} (f : A -> result B) (l : list A) : result (list B) :=
  match l with
  | [] => Ok []
  | a :: l' => b <- f a ;; bs <- mapM f l' ;; Ok (b :: bs)
  end.

(** ** Tensors *)

Definition image : Type := list Q.
Definition tensor : Type := list image.

Definition map2 {A B C : Type} (f : A -> B -> C) (a : list A) (b : list B) : list C :=
  map (fun ab => f (fst ab) (snd ab)) (combine a b).

Fixpoint shape_eqb (s t : list nat) : bool :=
  match s, t with
  | [], [] => true
  | m :: s', n :: t' => Nat.eqb m n && shape_eqb s' t'
  | _, _ => false
  end.

Definition shape (t : tensor) : list nat := map (@length Q) t.

Definition same_shape (a b : tensor) : bool := shape_eqb (shape a) (shape b).

(** Element-wise binary operation; torch refuses operands whose shapes
    disagree. *)
Definition tensor_map2 (f : Q -> Q -> Q) (a b : tensor) : result tensor :=
  if same_shape a b then Ok (map2 (map2 f) a b) else Raise RuntimeError.

Definition tensor_add : tensor -> tensor -> result tensor := tensor_map2 Qplus.
Definition tensor_sub : tensor -> tensor -> result tensor := tensor_map2 Qminus.

(** [torch.clamp(t, lo, hi)]: [min(max(x, lo), hi)] on every entry. *)
Definition clamp_entry (lo hi x : Q) : Q := Qmin (Qmax x lo) hi.
Definition clamp (t : tensor) (lo hi : Q) : tensor := map (map (clamp_entry lo hi)) t.

(** Sum of all entries, in storage order. *)
Definition tensor_sum (t : tensor) : Q := fold_left Qplus (concat t) 0%Q.

Definition sq_diff (x y : Q) : Q := ((x - y) * (x - y))%Q.

(** [torch.nn.MSELoss(reduction='sum')]. *)
Definition criterion (preds target : tensor) : result Q :=
  sq <- tensor_map2 sq_diff preds target ;;
  Ok (tensor_sum sq).

(** ** The external collaborators *)

Record hyperparams : Type := {
  num_channels : nat;
  patch_size : nat;
  num_layers : nat;
  kernel_size : nat;
  stride : nat;
  num_filters : nat
}.

Record Backend : Type := {
  params : Type;            (* trainable parameters of the network *)
  grads : Type;             (* the [.grad] buffers of the parameters *)
  optim : Type;             (* Adam's moment estimates and step count *)
  sched : Type;             (* ReduceLROnPlateau's counters *)
  DnCNN_Res : hyperparams -> params;
  no_grads : grads;
  (* [model(x)]; the flag is the module's train/eval mode *)
  forward : bool -> params -> tensor -> tensor;
  zero_grad : grads -> grads;
  (* [loss.backward()] for the loss of one batch: adds into the buffers *)
  backward : params -> tensor -> tensor -> grads -> grads;
  Adam : params -> optim;
  (* [optimizer.step()] at a learning rate *)
  adam_step : optim -> Q -> params -> grads -> params * optim;
  ReduceLROnPlateau : sched;
  (* [scheduler.step(metric)]: new counters and new learning rate *)
  plateau_step : sched -> Q -> Q -> sched * Q;
  (* [skimage.metrics.peak_signal_noise_ratio(a, b, data_range=r)] *)
  psnr : image -> image -> Q -> Q
}.

(** The network maps a batch to a batch of the same shape. *)
Definition shape_preserving (B : Backend) : Prop :=
  forall mode p x, same_shape (forward B mode p x) x = true.

(** ** The batch quality metric *)

Section Metric.
Variable B : Backend.

(** The [for i in range(clean_imgs.shape[0])] loop, with its running
    total. *)
Fixpoint psnr_loop (clean_imgs denoised_imgs : tensor) (idxs : list nat)
         (batch_psnr : Q) : result Q :=
  match idxs with
  | [] => Ok batch_psnr
  | i :: rest =>
      c <- index clean_imgs i ;;
      d <- index denoised_imgs i ;;
      psnr_loop clean_imgs denoised_imgs rest (batch_psnr + psnr B c d 1)%Q
  end.

Definition psnr_of_batch (clean_imgs denoised_imgs : tensor) : result Q :=
  batch_psnr <- psnr_loop clean_imgs denoised_imgs (seq 0 (length clean_imgs)) 0%Q ;;
  py_div batch_psnr (length clean_imgs).

End Metric.

(** ** The patch store and its accessor *)

(** One stored array: its (channels, height, width) and its entries. *)
Record patch : Type := {
  patch_shape : nat * nat * nat;
  pixels : image
}.

(** An HDF5 file: datasets by key. *)
Definition h5file : Type := list (string * patch).

(** The files the run can see. *)
Record world : Type := {
  files : list (string * h5file)
}.

Fixpoint lookup {A : Type} (k : string) (l : list (string * A)) : option A :=
  match l with
  | [] => None
  | (k', a) :: l' => if String.eqb k k' then Some a else lookup k l'
  end.

(** [os.path.exists]. *)
Definition path_exists (w : world) (path : string) : bool :=
  match lookup path (files w) with
  | Some _ => true
  | None => false
  end.

(** [h5py.File(file_name, 'r')]. *)
Definition h5_open (w : world) (file_name : string) : result h5file :=
  match lookup file_name (files w) with
  | Some data => Ok data
  | None => Raise (OSError file_name)
  end.

(** [data[key]]. *)
Definition h5_get (data : h5file) (key : string) : result patch :=
  match lookup key data with
  | Some p => Ok p
  | None => Raise (KeyError key)
  end.

(** The sources of randomness of one run. *)
Record entropy : Type := {
  (* outcome of the n-th [np.random.shuffle] call on a key list *)
  np_shuffle : nat -> list string -> list string;
  (* index permutation drawn by the shuffling sampler at epoch [e]
     for a dataset of [n] items *)
  randperm : nat -> nat -> list nat;
  (* the stream of standard normal draws *)
  gauss : nat -> Q
}.

Record Dataset : Type := {
  file_name : string;
  keys : list string
}.

(** [Dataset.__init__]: list the keys, shuffle them once. *)
Definition Dataset_init (w : world) (shuffle_keys : list string -> list string)
           (fname : string) : result Dataset :=
  data <- h5_open w fname ;;
  Ok {| file_name := fname; keys := shuffle_keys (map fst data) |}.

(** [Dataset.__len__]. *)
Definition Dataset_len (d : Dataset) : nat := length (keys d).

(** [Dataset.__getitem__]: reopen the file, read the patch at the
    [index]-th key. *)
Definition Dataset_getitem (w : world) (d : Dataset) (i : nat) : result image :=
  data <- h5_open w (file_name d) ;;
  key <- index (keys d) i ;;
  example <- h5_get data key ;;
  Ok (pixels example).

(** [Dataset.shape]. *)
Definition Dataset_shape (w : world) (d : Dataset) : result (nat * nat * nat) :=
  data <- h5_open w (file_name d) ;;
  key <- index (keys d) 0 ;;
  example <- h5_get data key ;;
  Ok (patch_shape example).

(** ** The batched loader

    [torch.utils.data.DataLoader] with the options the script passes: a
    sequential sampler when [shuffle] is off, a sampler that draws a fresh
    permutation of the indices at every iteration of the loader when it is
    on, batches of [batch_size] indices with a shorter last batch. *)

Record DataLoader : Type := {
  dataset : Dataset;
  batch_size : nat;
  shuffle : bool
}.

Definition DataLoader_init (d : Dataset) (bs : nat) (sh : bool) : result DataLoader :=
  match bs with
  | O => Raise ValueError
  | S _ => Ok {| dataset := d; batch_size := bs; shuffle := sh |}
  end.

(** The batch sampler: append indices to the current batch, emit it when it
    is full, emit what is left at the end. *)
Fixpoint batch_sampler (bs : nat) (batch : list nat) (idxs : list nat) : list (list nat) :=
  match idxs with
  | [] => match batch with [] => [] | _ :: _ => [batch] end
  | i :: rest =>
      let batch' := batch ++ [i] in
      if Nat.eqb (length batch') bs
      then batch' :: batch_sampler bs [] rest
      else batch_sampler bs batch' rest
  end.

(** The order of indices of one pass over the loader; [draw n] is the
    permutation of [0..n-1] the random sampler draws for this pass. *)
Definition sampler (dl : DataLoader) (draw : nat -> list nat) : list nat :=
  if shuffle dl
  then draw (Dataset_len (dataset dl))
  else seq 0 (Dataset_len (dataset dl)).

(** One pass over the loader: the batches, in delivery order. *)
Definition DataLoader_iter (w : world) (dl : DataLoader) (draw : nat -> list nat)
  : result (list tensor) :=
  mapM (fun idxs => mapM (Dataset_getitem w (dataset dl)) idxs)
       (batch_sampler (batch_size dl) [] (sampler dl draw)).

(** ** Noise synthesis *)

(** [torch.FloatTensor(size).normal_(mean=0, std=std)]: fill a tensor of the
    shape of [like] with the next draws of the stream; returns the tensor
    and the new stream position. *)
Definition normal_image (g : nat -> Q) (std : Q) (like : image) (pos : nat) : image :=
  map (fun k => (0 + std * g k)%Q) (seq pos (length like)).

Fixpoint normal_ (g : nat -> Q) (std : Q) (like : tensor) (pos : nat) : tensor * nat :=
  match like with
  | [] => ([], pos)
  | img :: rest =>
      let (t, pos') := normal_ g std rest (pos + length img) in
      (normal_image g std img pos :: t, pos')
  end.

(** ** Command line *)

Module Args.
Record t : Type := {
  train_set : string;
  val_set : string;
  batch_size : nat;
  epochs : nat;
  lr : Q;
  num_layers : nat;
  num_filters : nat;
  filter_size : nat;
  stride : nat;
  noise_level : Q;
  log_dir : string;
  model_dir : string
}.
End Args.

(** [os.path.join(dir, name)] for a relative [name]. *)
Fixpoint ends_with_slash (s : string) : bool :=
  match s with
  | EmptyString => false
  | String c EmptyString => Ascii.eqb c "/"%char
  | String _ rest => ends_with_slash rest
  end.

Definition path_join (dir name : string) : string :=
  match dir with
  | EmptyString => name
  | _ => if ends_with_slash dir
         then (dir ++ name)%string
         else (dir ++ "/" ++ name)%string
  end.

(** ** The training run *)

Section Run.
Variable B : Backend.

(** The model and optimizer objects. *)
Record net_state : Type := {
  training : bool;          (* set by [model.train()] / [model.eval()] *)
  weights : params B;
  grad : grads B;
  opt : optim B;
  lr : Q                    (* [optimizer.param_groups[0]["lr"]] *)
}.

Definition set_training (mode : bool) (st : net_state) : net_state :=
  {| training := mode; weights := weights st; grad := grad st;
     opt := opt st; lr := lr st |}.

Definition set_lr (r : Q) (st : net_state) : net_state :=
  {| training := training st; weights := weights st; grad := grad st;
     opt := opt st; lr := r |}.

(** The [history] dictionary. *)
Record History : Type := {
  hist_model : hyperparams;
  hist_train : list Q;
  hist_val : list Q;
  hist_psnr : list Q
}.

(** What a written file holds. *)
Inductive blob : Type :=
| Pickled (h : History)          (* [pickle.dump(history, ...)] *)
| SavedModel (w : params B).     (* [torch.save(model, ...)] *)

(** Everything the main loop updates.  [disk] is the log of the
    [pickle.dump] and [torch.save] calls so far, most recent first; the
    event files of the TensorBoard writer are not part of it. *)
Record run_state : Type := {
  net : net_state;
  plateau : sched B;
  best_val_loss : Q;
  history : History;
  disk : list (string * blob);
  rng_pos : nat
}.

Variable g : nat -> Q.
Variable noise_level : Q.

(** Body of the training loop (lines 135-158). *)
Definition train_batch (st : net_state) (pos : nat) (data : tensor)
  : result (net_state * nat * Q) :=
  let zeroed := zero_grad B (zero_grad B (grad st)) in
  let (noise, pos') := normal_ g noise_level data pos in
  noisy_imgs <- tensor_add data noise ;;
  let preds := forward B (training st) (weights st) noisy_imgs in
  sse <- criterion preds noise ;;
  let loss := (sse / of_nat (length noisy_imgs))%Q in
  let grad' := backward B (weights st) noisy_imgs noise zeroed in
  let (w', o') := adam_step B (opt st) (lr st) (weights st) grad' in
  Ok ({| training := training st; weights := w'; grad := grad';
         opt := o'; lr := lr st |}, pos', loss).

Fixpoint train_loop (st : net_state) (pos : nat) (batches : list tensor)
         (epoch_train_loss : Q) (train_steps : nat)
  : result (net_state * nat * Q * nat) :=
  match batches with
  | [] => Ok (st, pos, epoch_train_loss, train_steps)
  | data :: rest =>
      '(st', pos', loss) <- train_batch st pos data ;;
      train_loop st' pos' rest (epoch_train_loss + loss)%Q (S train_steps)
  end.

(** Body of the validation loop (lines 167-188). *)
Definition eval_batch (st : net_state) (pos : nat) (data : tensor)
  : result (net_state * nat * Q * Q) :=
  let (noise, pos') := normal_ g noise_level data pos in
  let clean_imgs := data in
  noisy_imgs <- tensor_add data noise ;;
  let preds := forward B (training st) (weights st) noisy_imgs in
  sse <- criterion preds noise ;;
  let val_loss := (sse / of_nat (length noisy_imgs))%Q in
  diff <- tensor_sub noisy_imgs preds ;;
  let denoised_imgs := clamp diff 0 1 in
  batch_psnr <- psnr_of_batch B clean_imgs denoised_imgs ;;
  Ok (st, pos', val_loss, batch_psnr).

Fixpoint eval_loop (st : net_state) (pos : nat) (batches : list tensor)
         (epoch_val_loss epoch_val_psnr : Q) (val_steps : nat)
  : result (net_state * nat * Q * Q * nat) :=
  match batches with
  | [] => Ok (st, pos, epoch_val_loss, epoch_val_psnr, val_steps)
  | data :: rest =>
      '(st', pos', val_loss, batch_psnr) <- eval_batch st pos data ;;
      eval_loop st' pos' rest (epoch_val_loss + val_loss)%Q
                (epoch_val_psnr + batch_psnr)%Q (S val_steps)
  end.

(** The training pass of one epoch: [model.train()] and the loop. *)
Definition train_pass (st : net_state) (pos : nat) (batches : list tensor)
  : result (net_state * nat * Q * nat) :=
  train_loop (set_training true st) pos batches 0 0.

(** The evaluation pass of one epoch: [model.eval()] and the loop. *)
Definition eval_pass (st : net_state) (pos : nat) (batches : list tensor)
  : result (net_state * nat * Q * Q * nat) :=
  eval_loop (set_training false st) pos batches 0 0 0.

Variable log_dir : string.

(** Lines 196-200: keep the best model. *)
Definition save_if_best (s : run_state) (epoch_val_loss : Q) : run_state :=
  if Qltb epoch_val_loss (best_val_loss s)
  then {| net := net s; plateau := plateau s;
          best_val_loss := epoch_val_loss;
          history := history s;
          disk := (path_join log_dir "best_model.npy", Pickled (history s))
                  :: (path_join log_dir "best_model.pt",
                      SavedModel (weights (net s)))
                  :: disk s;
          rng_pos := rng_pos s |}
  else s.

(** Line 203: [scheduler.step(epoch_val_loss)]. *)
Definition scheduler_step (s : run_state) (epoch_val_loss : Q) : run_state :=
  let (p', lr') := plateau_step B (plateau s) epoch_val_loss (lr (net s)) in
  {| net := set_lr lr' (net s); plateau := p';
     best_val_loss := best_val_loss s; history := history s;
     disk := disk s; rng_pos := rng_pos s |}.

(** Lines 206-208: append the epoch's statistics. *)
Definition save_epoch_stats (s : run_state) (tl vl ps : Q) : run_state :=
  {| net := net s; plateau := plateau s; best_val_loss := best_val_loss s;
     history := {| hist_model := hist_model (history s);
                   hist_train := hist_train (history s) ++ [tl];
                   hist_val := hist_val (history s) ++ [vl];
                   hist_psnr := hist_psnr (history s) ++ [ps] |};
     disk := disk s; rng_pos := rng_pos s |}.

Definition with_net (s : run_state) (st : net_state) (pos : nat) : run_state :=
  {| net := st; plateau := plateau s; best_val_loss := best_val_loss s;
     history := history s; disk := disk s; rng_pos := pos |}.

(** Lines 195-208, after the three means are known: best-model check,
    scheduler, history. *)
Definition end_of_epoch (s : run_state) (tl vl ps : Q) : run_state :=
  let s1 := save_if_best s vl in
  let s2 := scheduler_step s1 vl in
  save_epoch_stats s2 tl vl ps.

Variable w : world.
Variable rng : entropy.
Variables train_loader val_loader : DataLoader.

(** One iteration of the main loop (lines 128-214). *)
Definition epoch_body (s : run_state) (epoch : nat) : result run_state :=
  train_batches <- DataLoader_iter w train_loader (randperm rng epoch) ;;
  '(st1, pos1, epoch_train_loss, train_steps) <-
     train_pass (net s) (rng_pos s) train_batches ;;
  val_batches <- DataLoader_iter w val_loader (randperm rng epoch) ;;
  '(st2, pos2, epoch_val_loss, epoch_val_psnr, val_steps) <-
     eval_pass st1 pos1 val_batches ;;
  epoch_train_loss <- py_div epoch_train_loss train_steps ;;
  epoch_val_loss <- py_div epoch_val_loss val_steps ;;
  epoch_val_psnr <- py_div epoch_val_psnr val_steps ;;
  Ok (end_of_epoch (with_net s st2 pos2)
                   epoch_train_loss epoch_val_loss epoch_val_psnr).

(** [for epoch in range(args.epochs)]. *)
Fixpoint epochs_loop (s : run_state) (epoch_range : list nat) : result run_state :=
  match epoch_range with
  | [] => Ok s
  | epoch :: rest => s' <- epoch_body s epoch ;; epochs_loop s' rest
  end.

End Run.

(** ** The entry point *)

Section Main.
Variable B : Backend.
Variable w : world.
Variable rng : entropy.
Variable args : Args.t.

(** The [model_params] dictionary. *)
Definition model_params (shp : nat * nat * nat) : hyperparams :=
  let '(channels, patch_height, _) := shp in
  {| num_channels := channels; patch_size := patch_height;
     num_layers := Args.num_layers args;
     kernel_size := Args.filter_size args;
     stride := Args.stride args;
     num_filters := Args.num_filters args |}.

(** Lines 71-127: everything before the main loop. *)
Definition main_setup : result (run_state B * DataLoader * DataLoader) :=
  _ <- py_assert (path_exists w (Args.train_set args))
         ("Cannot find training vectors file " ++ Args.train_set args) ;;
  _ <- py_assert (path_exists w (Args.val_set args))
         ("Cannot find validation vectors file " ++ Args.train_set args) ;;
  train_data <- Dataset_init w (np_shuffle rng 0) (Args.train_set args) ;;
  val_data <- Dataset_init w (np_shuffle rng 1) (Args.val_set args) ;;
  train_loader <- DataLoader_init train_data (Args.batch_size args) true ;;
  val_loader <- DataLoader_init val_data (Args.batch_size args) false ;;
  shp <- Dataset_shape w train_data ;;
  let hp := model_params shp in
  let model := DnCNN_Res B hp in
  let history0 := {| hist_model := hp; hist_train := [];
                     hist_val := []; hist_psnr := [] |} in
  Ok ({| net := {| training := true; weights := model;
                   grad := no_grads B; opt := Adam B model;
                   lr := Args.lr args |};
         plateau := ReduceLROnPlateau B;
         best_val_loss := 999;
         history := history0;
         disk := [(path_join (Args.log_dir args) "model.npy",
                   Pickled B history0)];
         rng_pos := 0 |},
      train_loader, val_loader).

(** Lines 226-229: the final model and history. *)
Definition save_final (s : run_state B) : run_state B :=
  {| net := net s; plateau := plateau s; best_val_loss := best_val_loss s;
     history := history s;
     disk := (path_join (Args.log_dir args) "final_model.npy",
              Pickled B (history s))
             :: (path_join (Args.log_dir args) "final_model.pt",
                 SavedModel B (weights (net s)))
             :: disk s;
     rng_pos := rng_pos s |}.

(** The main loop from a given state, as [main] runs it. *)
Definition main_loop (train_loader val_loader : DataLoader)
           (s : run_state B) (epoch_range : list nat) : result (run_state B) :=
  epochs_loop (gauss rng) (Args.noise_level args / 255)%Q (Args.log_dir args)
              w rng train_loader val_loader s epoch_range.

(** One iteration of it. *)
Definition main_epoch (train_loader val_loader : DataLoader)
           (s : run_state B) (epoch : nat) : result (run_state B) :=
  epoch_body (gauss rng) (Args.noise_level args / 255)%Q (Args.log_dir args)
             w rng train_loader val_loader s epoch.

Definition main : result (run_state B) :=
  '(s0, train_loader, val_loader) <- main_setup ;;
  s <- main_loop train_loader val_loader s0 (seq 0 (Args.epochs args)) ;;
  Ok (save_final s).

End Main.

(** ** The specification's formulas

    These follow the wording of the specification, not the script; the
    theorems below compare the two. *)

Definition Qsum (l : list Q) : Q := fold_right Qplus 0%Q l.

(** Arithmetic mean. *)
Definition mean (l : list Q) : Q := (Qsum l / of_nat (length l))%Q.

(** Sum over the examples of the sum over the entries of (P - N)^2. *)
Definition spec_sse (P N : tensor) : Q :=
  Qsum (map2 (fun p n => Qsum (map2 sq_diff p n)) P N).

(** sum((P - N)^2) / B, with B the number of examples. *)
Definition spec_batch_loss (P N : tensor) : Q :=
  (spec_sse P N / of_nat (length P))%Q.

(** clamp(corrupted - residual, 0, 1), entry by entry. *)
Definition spec_denoised (corrupted residual : tensor) : tensor :=
  map2 (map2 (fun x r => Qmin (Qmax (x - r) 0) 1)) corrupted residual.

(** Mean over the batch of the per-image PSNR at data range 1. *)
Definition spec_batch_psnr (B : Backend) (reference candidate : tensor) : Q :=
  mean (map2 (fun c d => psnr B c d 1) reference candidate).

Section Traces.
Variable B : Backend.
Variable g : nat -> Q.
Variable noise_level : Q.

(** The tensors of one batch, as the loops build them. *)
Definition batch_noise (pos : nat) (data : tensor) : tensor :=
  fst (normal_ g noise_level data pos).
Definition batch_noisy (pos : nat) (data : tensor) : tensor :=
  map2 (map2 Qplus) data (batch_noise pos data).
Definition batch_preds (st : net_state B) (pos : nat) (data : tensor) : tensor :=
  forward B (training st) (weights st) (batch_noisy pos data).

(** The per-batch losses of a training loop, batch after batch. *)
Inductive train_run : net_state B -> nat -> list tensor -> list Q
                      -> net_state B -> nat -> Prop :=
| train_run_nil : forall st pos, train_run st pos [] [] st pos
| train_run_cons : forall st pos data rest st1 pos1 loss losses st' pos',
    train_batch g noise_level st pos data = Ok (st1, pos1, loss) ->
    train_run st1 pos1 rest losses st' pos' ->
    train_run st pos (data :: rest) (loss :: losses) st' pos'.

(** The per-batch losses and PSNRs of a validation loop. *)
Inductive eval_run : net_state B -> nat -> list tensor -> list Q -> list Q
                     -> net_state B -> nat -> Prop :=
| eval_run_nil : forall st pos, eval_run st pos [] [] [] st pos
| eval_run_cons : forall st pos data rest st1 pos1 loss ps losses psnrs st' pos',
    eval_batch g noise_level st pos data = Ok (st1, pos1, loss, ps) ->
    eval_run st1 pos1 rest losses psnrs st' pos' ->
    eval_run st pos (data :: rest) (loss :: losses) (ps :: psnrs) st' pos'.

End Traces.

(** Lengths of the three sequences of every history record on disk. *)
Definition pickled_lengths (B : Backend) (d : list (string * blob B))
  : list (nat * nat * nat) :=
  flat_map (fun f => match snd f with
                     | Pickled _ h => [(length (hist_train h),
                                        length (hist_val h),
                                        length (hist_psnr h))]
                     | SavedModel _ _ => []
                     end) d.

(** ** A small concrete instance

    A one-parameter network [x |-> w * x] trained by plain gradient
    descent, two tiny patch stores, and fixed random draws.  It serves to
    run the definitions on actual inputs. *)

Module Toy.

Definition scale (w : Q) (t : tensor) : tensor := map (map (Qmult w)) t.

(** d/dw of sum((w*x - n)^2), added to the buffer. *)
Definition toy_backward (w : Q) (x n : tensor) (acc : Q) : Q :=
  Qred (acc + tensor_sum (map2 (map2 (fun xi ni => 2 * (w * xi - ni) * xi)) x n))%Q.

(** A rational stand-in for the library metric: data range squared minus
    the summed squared error. *)
Definition toy_psnr (a b : image) (range : Q) : Q :=
  (range * range - fold_right Qplus 0 (map2 sq_diff a b))%Q.

Definition backend (w0 : Q) : Backend :=
  {| params := Q; grads := Q; optim := nat; sched := nat;
     DnCNN_Res := fun _ => w0;
     no_grads := 0%Q;
     forward := fun _ w x => scale w x;
     zero_grad := fun _ => 0%Q;
     backward := toy_backward;
     Adam := fun _ => O;
     adam_step := fun o r w gr => (Qred (w - r * gr)%Q, S o);
     ReduceLROnPlateau := O;
     plateau_step := fun c _ r => (S c, r);
     psnr := toy_psnr |}.

Definition px (l : image) : patch := {| patch_shape := (1, 1, 2)%nat; pixels := l |}.

Definition world0 : world :=
  {| files :=
       [("train.h5"%string,
         [("p0"%string, px [1#2; 1#4]%Q); ("p1"%string, px [1; 0]%Q);
          ("p2"%string, px [3#4; 1#2]%Q)]);
        ("val.h5"%string,
         [("q0"%string, px [1#2; 1#2]%Q); ("q1"%string, px [1#4; 1]%Q)])] |}.

Definition rng0 : entropy :=
  {| np_shuffle := fun _ l => rev l;
     randperm := fun e n => if Nat.even e then seq 0 n else rev (seq 0 n);
     gauss := fun k => if Nat.even k then 1%Q else (-1)%Q |}.

Definition args0 (bs ep : nat) : Args.t :=
  {| Args.train_set := "train.h5"; Args.val_set := "val.h5";
     Args.batch_size := bs; Args.epochs := ep; Args.lr := (1 # 100)%Q;
     Args.num_layers := 17; Args.num_filters := 64; Args.filter_size := 3;
     Args.stride := 1; Args.noise_level := (51 # 2)%Q;
     Args.log_dir := "logs"; Args.model_dir := "models" |}.

(** The same command line with a validation store that is not there. *)
Definition args_no_val : Args.t :=
  {| Args.train_set := "train.h5"; Args.val_set := "missing.h5";
     Args.batch_size := 2; Args.epochs := 2; Args.lr := (1 # 100)%Q;
     Args.num_layers := 17; Args.num_filters := 64; Args.filter_size := 3;
     Args.stride := 1; Args.noise_level := (51 # 2)%Q;
     Args.log_dir := "logs"; Args.model_dir := "models" |}.

(** A network that starts close to the identity, and one that starts far
    off. *)
Definition near : Backend := backend (1 # 2).
Definition far : Backend := backend 40.

(** What [main_setup] builds from [world0], [rng0] and [args0 2 _]. *)
Definition train_loader : DataLoader :=
  {| dataset := {| file_name := "train.h5"; keys := ["p2"; "p1"; "p0"]%string |};
     batch_size := 2; shuffle := true |}.

Definition val_loader : DataLoader :=
  {| dataset := {| file_name := "val.h5"; keys := ["q1"; "q0"]%string |};
     batch_size := 2; shuffle := false |}.

Definition history0 : History :=
  {| hist_model := {| num_channels := 1; patch_size := 1; num_layers := 17;
                      kernel_size := 3; stride := 1; num_filters := 64 |};
     hist_train := []; hist_val := []; hist_psnr := [] |}.

Definition state0 (w0 : Q) : run_state (backend w0) :=
  {| net := Build_net_state (backend w0) true w0 0%Q O (1 # 100)%Q;
     plateau := O;
     best_val_loss := 999;
     history := history0;
     disk := [("logs/model.npy"%string, Pickled (backend w0) history0)];
     rng_pos := 0 |}.

(** The batches of the first epoch. *)
Definition train_batches0 : list tensor :=
  [[[3 # 4; 1 # 2]; [1; 0]]; [[1 # 2; 1 # 4]]]%Q.
Definition val_batches0 : list tensor :=
  [[[1 # 4; 1]; [1 # 2; 1 # 2]]]%Q.

(** The state a run is in when an epoch has returned. *)
Definition state_after (B : Backend) (r : result (run_state B))
           (otherwise : run_state B) : run_state B :=
  match r with
  | Ok s => s
  | Raise _ => otherwise
  end.

(** The run of [near] after its first and its second epoch. *)
Definition state1 : run_state near :=
  Eval vm_compute in
    state_after (main_epoch world0 rng0 (args0 2 2) train_loader val_loader
                            (state0 (1 # 2)) 0)
                (state0 (1 # 2)).

Definition state2 : run_state near :=
  Eval vm_compute in
    state_after (main_epoch world0 rng0 (args0 2 2) train_loader val_loader
                            state1 1)
                state1.

(** The run of [far] after its first epoch. *)
Definition far_state1 : run_state far :=
  Eval vm_compute in
    state_after (main_epoch world0 rng0 (args0 2 1) train_loader val_loader
                            (state0 40) 0)
                (state0 40).



End Toy.

(** Equality of outcomes: the same exception, or equal numbers. *)
Definition result_eq (r1 r2 : result Q) : Prop :=
  match r1, r2 with
  | Ok a, Ok b => (a == b)%Q
  | Raise e1, Raise e2 => e1 = e2
  | _, _ => False
  end.

(** What [psnr_of_batch] does on any two batches, by cases on their
    sizes. *)
Definition psnr_of_batch_outcome (B : Backend) (clean_imgs denoised_imgs : tensor)
  : result Q :=
  if Nat.eqb (length clean_imgs) 0 then Raise ZeroDivisionError
  else if Nat.ltb (length denoised_imgs) (length clean_imgs) then Raise IndexError
  else Ok (spec_batch_psnr B clean_imgs
             (firstn (length clean_imgs) denoised_imgs)).

(** * Lemmas and theorems *)

(** ** Fallible computations *)

Lemma bind_Ok_inv (A C : Type) (c : result A) (k : A -> result C) (v : C) :
  bind c k = Ok v -> exists a, c = Ok a /\ k a = Ok v.
Proof.
  destruct c as [a|e]; simpl; intros H; [eauto | discriminate].
Qed.

Lemma index_lt (A : Type) (l : list A) (i : nat) (d : A) :
  i < length l -> index l i = Ok (nth i l d).
Proof.
  intros Hi. unfold index.
  rewrite (nth_error_nth' l d Hi). reflexivity.
Qed.

Lemma index_ge (A : Type) (l : list A) (i : nat) :
  length l <= i -> index l i = Raise IndexError.
Proof.
  intros Hi. unfold index.
  apply nth_error_None in Hi. rewrite Hi. reflexivity.
Qed.

Lemma py_div_pos (x : Q) (n : nat) :
  n <> 0 -> py_div x n = Ok (x / of_nat n)%Q.
Proof.
  destruct n; [congruence | reflexivity].
Qed.

Lemma Qltb_lt (a b : Q) : Qltb a b = true <-> (a < b)%Q.
Proof.
  unfold Qltb. rewrite negb_true_iff.
  split; intros H.
  - apply Qnot_le_lt. intros Hle.
    apply Qle_bool_iff in Hle. congruence.
  - destruct (Qle_bool b a) eqn:E; [|reflexivity].
    apply Qle_bool_iff in E. exfalso. exact (Qlt_not_le _ _ H E).
Qed.

Lemma Qltb_ge (a b : Q) : Qltb a b = false <-> (b <= a)%Q.
Proof.
  unfold Qltb. rewrite negb_false_iff. apply Qle_bool_iff.
Qed.

(** ** Sums *)

Lemma fold_left_Qplus (l : list Q) (acc : Q) :
  (fold_left Qplus l acc == acc + Qsum l)%Q.
Proof.
  revert acc. induction l as [|x l IH]; intros acc; simpl.
  - ring.
  - rewrite IH. ring.
Qed.

Lemma Qsum_app (l1 l2 : list Q) : (Qsum (l1 ++ l2) == Qsum l1 + Qsum l2)%Q.
Proof.
  induction l1 as [|x l1 IH]; simpl.
  - ring.
  - rewrite IH. ring.
Qed.

Lemma tensor_sum_rows (t : tensor) : (tensor_sum t == Qsum (map Qsum t))%Q.
Proof.
  unfold tensor_sum. rewrite fold_left_Qplus.
  setoid_replace (Qsum (concat t)) with (Qsum (map Qsum t)).
  - ring.
  - induction t as [|r t IH]; simpl.
    + reflexivity.
    + rewrite Qsum_app, IH. reflexivity.
Qed.

Lemma map2_length (A C D : Type) (f : A -> C -> D) (a : list A) (b : list C) :
  length (map2 f a b) = Nat.min (length a) (length b).
Proof.
  unfold map2. rewrite length_map, length_combine. reflexivity.
Qed.

Lemma map2_cons (A C D : Type) (f : A -> C -> D) x y (a : list A) (b : list C) :
  map2 f (x :: a) (y :: b) = f x y :: map2 f a b.
Proof. reflexivity. Qed.

Lemma map_map2 (A C D E : Type) (f : A -> C -> D) (h : D -> E) (a : list A) (b : list C) :
  map h (map2 f a b) = map2 (fun x y => h (f x y)) a b.
Proof.
  unfold map2. rewrite map_map. reflexivity.
Qed.

(** Reading two lists position by position is [map2]. *)
Lemma map_nth_seq (A C D : Type) (f : A -> C -> D) (a : list A) (b : list C)
      (da : A) (db : C) :
  length a <= length b ->
  map (fun i => f (nth i a da) (nth i b db)) (seq 0 (length a)) = map2 f a b.
Proof.
  revert b. induction a as [|x a IH]; intros b Hle; simpl.
  - reflexivity.
  - destruct b as [|y b]; simpl in Hle; [lia|].
    rewrite map2_cons. f_equal.
    rewrite <- seq_shift, map_map. simpl.
    apply IH. lia.
Qed.

Lemma map2_firstn (A C D : Type) (f : A -> C -> D) (a : list A) (b : list C) :
  map2 f a (firstn (length a) b) = map2 f a b.
Proof.
  revert b. induction a as [|x a IH]; intros b; simpl.
  - reflexivity.
  - destruct b as [|y b]; simpl; [reflexivity|].
    rewrite !map2_cons. f_equal. apply IH.
Qed.

(** ** The batch quality metric *)

Section MetricFacts.
Variable B : Backend.

Lemma psnr_loop_in_range (clean denoised : tensor) :
  forall n a acc,
    a + n <= length clean -> a + n <= length denoised ->
    psnr_loop B clean denoised (seq a n) acc
    = Ok (fold_left Qplus
            (map (fun i => psnr B (nth i clean []) (nth i denoised []) 1)
                 (seq a n)) acc).
Proof.
  induction n as [|n IH]; intros a acc Hc Hd; simpl.
  - reflexivity.
  - rewrite (@index_lt _ clean a []) by lia.
    rewrite (@index_lt _ denoised a []) by lia. simpl.
    apply IH; lia.
Qed.

Lemma psnr_loop_short (clean denoised : tensor) :
  forall n a acc,
    a <= length denoised -> length denoised < a + n -> a + n <= length clean ->
    psnr_loop B clean denoised (seq a n) acc = Raise IndexError.
Proof.
  induction n as [|n IH]; intros a acc Hlo Hhi Hc; simpl.
  - lia.
  - rewrite (@index_lt _ clean a []) by lia. simpl.
    destruct (Nat.eq_dec a (length denoised)) as [->|Hne].
    + rewrite index_ge by lia. reflexivity.
    + rewrite (@index_lt _ denoised a []) by lia. simpl.
      apply IH; lia.
Qed.

Lemma psnr_of_batch_empty (denoised : tensor) :
  psnr_of_batch B [] denoised = Raise ZeroDivisionError.
Proof. reflexivity. Qed.

Lemma psnr_of_batch_short (clean denoised : tensor) :
  length denoised < length clean ->
  psnr_of_batch B clean denoised = Raise IndexError.
Proof.
  intros Hlt. unfold psnr_of_batch.
  rewrite psnr_loop_short by lia. reflexivity.
Qed.

Lemma psnr_of_batch_enough (clean denoised : tensor) :
  length clean <> 0 -> length clean <= length denoised ->
  exists v, psnr_of_batch B clean denoised = Ok v
            /\ (v == spec_batch_psnr B clean denoised)%Q.
Proof.
  intros Hne Hle. unfold psnr_of_batch.
  rewrite psnr_loop_in_range by lia. simpl.
  rewrite py_div_pos by assumption.
  eexists. split; [reflexivity|].
  unfold spec_batch_psnr, mean.
  rewrite map2_length, Nat.min_l by assumption.
  rewrite fold_left_Qplus.
  rewrite (map_nth_seq (fun c d => psnr B c d 1)) by assumption.
  apply Qmult_comp; [ring | reflexivity].
Qed.

(** C6 (as amended).  The batch PSNR never compares the two batch sizes.
    It fails with a zero division on an empty reference batch and with an
    index error when the candidate batch is shorter than the reference
    batch; when the candidate batch is at least as long it returns the mean
    PSNR of the first [len(reference)] image pairs, the surplus candidate
    images being ignored. *)
Theorem psnr_of_batch_by_sizes (clean_imgs denoised_imgs : tensor) :
  result_eq (psnr_of_batch B clean_imgs denoised_imgs)
            (psnr_of_batch_outcome B clean_imgs denoised_imgs).
Proof.
  unfold psnr_of_batch_outcome.
  destruct (Nat.eqb_spec (length clean_imgs) 0) as [E0|N0].
  - destruct clean_imgs; [|discriminate].
    rewrite psnr_of_batch_empty. reflexivity.
  - destruct (Nat.ltb_spec (length denoised_imgs) (length clean_imgs)) as [Hlt|Hge].
    + rewrite psnr_of_batch_short by assumption. reflexivity.
    + destruct (psnr_of_batch_enough clean_imgs denoised_imgs N0 Hge)
        as (v & -> & Hv).
      simpl. rewrite Hv. unfold spec_batch_psnr.
      rewrite map2_firstn. reflexivity.
Qed.

End MetricFacts.

(** ** Shapes and element-wise operations *)

Lemma shape_eqb_eq (s t : list nat) : shape_eqb s t = true <-> s = t.
Proof.
  revert t. induction s as [|m s IH]; intros [|n t]; simpl;
    try (split; intros; congruence).
  rewrite andb_true_iff, Nat.eqb_eq, IH.
  split; [intros [-> ->]; reflexivity | intros E; inversion E; auto].
Qed.

Lemma same_shape_eq (a b : tensor) : same_shape a b = true <-> shape a = shape b.
Proof. apply shape_eqb_eq. Qed.

Lemma shape_length (a b : tensor) : shape a = shape b -> length a = length b.
Proof.
  intros H. apply (f_equal (@length nat)) in H.
  unfold shape in H. rewrite !length_map in H. exact H.
Qed.

Lemma same_shape_length (a b : tensor) :
  same_shape a b = true -> length a = length b.
Proof.
  intros H. apply shape_length, same_shape_eq, H.
Qed.

Lemma shape_map2 (f : Q -> Q -> Q) (a b : tensor) :
  shape a = shape b -> shape (map2 (map2 f) a b) = shape a.
Proof.
  revert b. induction a as [|x a IH]; intros [|y b] E;
    try discriminate; [reflexivity|].
  inversion E as [[Hxy Hab]].
  rewrite map2_cons. unfold shape in *. rewrite !map_cons.
  f_equal.
  - rewrite map2_length, Hxy. apply Nat.min_id.
  - apply IH, Hab.
Qed.

Lemma tensor_map2_same (f : Q -> Q -> Q) (a b : tensor) :
  shape a = shape b -> tensor_map2 f a b = Ok (map2 (map2 f) a b).
Proof.
  intros E. unfold tensor_map2.
  apply same_shape_eq in E. rewrite E. reflexivity.
Qed.

Lemma normal_shape (g : nat -> Q) (std : Q) (like : tensor) (pos : nat) :
  shape (fst (normal_ g std like pos)) = shape like.
Proof.
  revert pos. induction like as [|img rest IH]; intros pos; simpl.
  - reflexivity.
  - specialize (IH (pos + length img)).
    destruct (normal_ g std rest (pos + length img)) as [t pos'].
    simpl in *. rewrite IH. f_equal.
    unfold normal_image. rewrite length_map, length_seq. reflexivity.
Qed.

Lemma criterion_same (preds target : tensor) :
  shape preds = shape target ->
  exists sse, criterion preds target = Ok sse
              /\ (sse == spec_sse preds target)%Q.
Proof.
  intros E. unfold criterion.
  rewrite tensor_map2_same by assumption. simpl.
  eexists. split; [reflexivity|].
  rewrite tensor_sum_rows, map_map2. reflexivity.
Qed.

Lemma clamp_sub (noisy preds : tensor) :
  clamp (map2 (map2 Qminus) noisy preds) 0 1 = spec_denoised noisy preds.
Proof.
  unfold clamp, spec_denoised.
  rewrite map_map2. unfold map2 at 1 3.
  apply map_ext. intros [x r]. simpl.
  apply map_map2.
Qed.

(** ** One batch *)

Section BatchFacts.
Variable B : Backend.
Variable g : nat -> Q.
Variable noise_level : Q.
Hypothesis net_shape : shape_preserving B.

Lemma batch_noisy_shape (pos : nat) (data : tensor) :
  shape (batch_noisy g noise_level pos data) = shape data.
Proof.
  unfold batch_noisy. apply shape_map2.
  symmetry. apply normal_shape.
Qed.

Lemma batch_preds_shape (st : net_state B) (pos : nat) (data : tensor) :
  shape (batch_preds g noise_level st pos data) = shape data.
Proof.
  unfold batch_preds.
  rewrite <- (batch_noisy_shape pos data).
  apply same_shape_eq, net_shape.
Qed.

Lemma train_batch_spec (st : net_state B) (pos : nat) (data : tensor) :
  exists st' loss,
    train_batch g noise_level st pos data
    = Ok (st', snd (normal_ g noise_level data pos), loss)
    /\ (loss == spec_batch_loss (batch_preds g noise_level st pos data) (batch_noise g noise_level pos data))%Q
    /\ training st' = training st /\ lr st' = lr st.
Proof.
  unfold train_batch.
  pose proof (normal_shape g noise_level data pos) as Hn.
  pose proof (batch_preds_shape st pos data) as Hp.
  pose proof (batch_noisy_shape pos data) as Hy.
  unfold batch_preds, batch_noisy, batch_noise in *.
  destruct (normal_ g noise_level data pos) as [noise pos'] eqn:En.
  simpl in *.
  unfold tensor_add. rewrite tensor_map2_same by congruence. simpl.
  destruct (criterion_same
              (forward B (training st) (weights st) (map2 (map2 Qplus) data noise))
              noise) as (sse & -> & Hsse); [congruence|].
  simpl.
  destruct (adam_step B (opt st) (lr st) (weights st) _) as [w' o'].
  eexists _, _. split; [reflexivity|]. split; [|split; reflexivity].
  unfold spec_batch_loss. rewrite Hsse.
  rewrite (same_shape_length _ _ (net_shape _ _ _)). reflexivity.
Qed.

Lemma eval_batch_spec (st : net_state B) (pos : nat) (data : tensor) :
  data <> [] ->
  exists val_loss batch_psnr,
    eval_batch g noise_level st pos data
    = Ok (st, snd (normal_ g noise_level data pos), val_loss, batch_psnr)
    /\ (val_loss == spec_batch_loss (batch_preds g noise_level st pos data)
                                    (batch_noise g noise_level pos data))%Q
    /\ (batch_psnr == spec_batch_psnr B data
                        (spec_denoised (batch_noisy g noise_level pos data)
                                       (batch_preds g noise_level st pos data)))%Q.
Proof.
  intros Hne. unfold eval_batch.
  pose proof (normal_shape g noise_level data pos) as Hn.
  pose proof (batch_preds_shape st pos data) as Hp.
  pose proof (batch_noisy_shape pos data) as Hy.
  unfold batch_preds, batch_noisy, batch_noise in *.
  destruct (normal_ g noise_level data pos) as [noise pos'] eqn:En.
  simpl in *.
  unfold tensor_add. rewrite tensor_map2_same by congruence. simpl.
  set (noisy := map2 (map2 Qplus) data noise) in *.
  set (preds := forward B (training st) (weights st) noisy) in *.
  destruct (criterion_same preds noise) as (sse & -> & Hsse); [congruence|].
  simpl.
  unfold tensor_sub. rewrite tensor_map2_same by congruence. simpl.
  rewrite clamp_sub.
  destruct (psnr_of_batch_enough B data (spec_denoised noisy preds))
    as (v & -> & Hv).
  - destruct data; [congruence | discriminate].
  - unfold spec_denoised. rewrite map2_length.
    apply shape_length in Hy, Hp.
    apply Nat.min_glb; apply Nat.eq_le_incl; symmetry; [exact Hy | exact Hp].
  - simpl. eexists _, _. split; [reflexivity|]. split; [|exact Hv].
    unfold spec_batch_loss. rewrite Hsse. unfold preds.
    rewrite (same_shape_length _ _ (net_shape _ _ _)). reflexivity.
Qed.

End BatchFacts.

(** ** The two batch loops *)

Section LoopFacts.
Variable B : Backend.
Variable g : nat -> Q.
Variable noise_level : Q.

(** The evaluation body hands back the state it was given. *)
Lemma eval_batch_frame (st st1 : net_state B) (pos pos1 : nat) (data : tensor)
      (l p : Q) :
  eval_batch g noise_level st pos data = Ok (st1, pos1, l, p) -> st1 = st.
Proof.
  unfold eval_batch.
  destruct (normal_ g noise_level data pos) as [noise pos'].
  intros H.
  apply bind_Ok_inv in H as (noisy & _ & H).
  apply bind_Ok_inv in H as (sse & _ & H).
  apply bind_Ok_inv in H as (diff & _ & H).
  apply bind_Ok_inv in H as (ps & _ & H).
  inversion H. reflexivity.
Qed.

Lemma eval_run_frame (st st' : net_state B) (pos pos' : nat)
      (batches : list tensor) (losses psnrs : list Q) :
  eval_run g noise_level st pos batches losses psnrs st' pos' -> st' = st.
Proof.
  induction 1 as [|st pos data rest st1 pos1 loss ps losses psnrs st' pos' Hb _ IH].
  - reflexivity.
  - apply eval_batch_frame in Hb. congruence.
Qed.

(** What the loops return is read off the trace of their batches. *)
Lemma train_run_loop (st st' : net_state B) (pos pos' : nat)
      (batches : list tensor) (losses : list Q) :
  train_run g noise_level st pos batches losses st' pos' ->
  forall acc n,
  exists total,
    train_loop g noise_level st pos batches acc n
    = Ok (st', pos', total, n + length batches)
    /\ (total == acc + Qsum losses)%Q
    /\ length losses = length batches.
Proof.
  induction 1 as [|st pos data rest st1 pos1 loss losses st' pos' Hb _ IH];
    intros acc n; simpl.
  - exists acc. repeat split.
    + rewrite Nat.add_0_r. reflexivity.
    + ring.
  - rewrite Hb. simpl.
    destruct (IH (acc + loss)%Q (S n)) as (total & -> & Ht & Hl).
    exists total. repeat split.
    + rewrite Nat.add_succ_r. reflexivity.
    + rewrite Ht. ring.
    + rewrite Hl. reflexivity.
Qed.

Lemma eval_run_loop (st st' : net_state B) (pos pos' : nat)
      (batches : list tensor) (losses psnrs : list Q) :
  eval_run g noise_level st pos batches losses psnrs st' pos' ->
  forall acc pacc n,
  exists total ptotal,
    eval_loop g noise_level st pos batches acc pacc n
    = Ok (st', pos', total, ptotal, n + length batches)
    /\ (total == acc + Qsum losses)%Q
    /\ (ptotal == pacc + Qsum psnrs)%Q
    /\ length losses = length batches
    /\ length psnrs = length batches.
Proof.
  induction 1 as [|st pos data rest st1 pos1 loss ps losses psnrs st' pos' Hb _ IH];
    intros acc pacc n; simpl.
  - exists acc, pacc. repeat split.
    + rewrite Nat.add_0_r. reflexivity.
    + ring.
    + ring.
  - rewrite Hb. simpl.
    destruct (IH (acc + loss)%Q (pacc + ps)%Q (S n))
      as (total & ptotal & -> & Ht & Hp & Hl & Hq).
    exists total, ptotal. repeat split.
    + rewrite Nat.add_succ_r. reflexivity.
    + rewrite Ht. ring.
    + rewrite Hp. ring.
    + rewrite Hl. reflexivity.
    + rewrite Hq. reflexivity.
Qed.

(** Conversely every completed loop has a trace. *)
Lemma train_loop_run (batches : list tensor) :
  forall (st : net_state B) pos acc n st' pos' total steps,
    train_loop g noise_level st pos batches acc n = Ok (st', pos', total, steps) ->
    exists losses, train_run g noise_level st pos batches losses st' pos'.
Proof.
  induction batches as [|data rest IH];
    intros st pos acc n st' pos' total steps H; simpl in H.
  - inversion H; subst. exists []. constructor.
  - apply bind_Ok_inv in H as ([[st1 pos1] loss] & Hb & H).
    apply IH in H as (losses & Hr).
    exists (loss :: losses). econstructor; eassumption.
Qed.

Lemma eval_loop_run (batches : list tensor) :
  forall (st : net_state B) pos acc pacc n st' pos' total ptotal steps,
    eval_loop g noise_level st pos batches acc pacc n
    = Ok (st', pos', total, ptotal, steps) ->
    exists losses psnrs,
      eval_run g noise_level st pos batches losses psnrs st' pos'.
Proof.
  induction batches as [|data rest IH];
    intros st pos acc pacc n st' pos' total ptotal steps H; simpl in H.
  - inversion H; subst. exists [], []. constructor.
  - apply bind_Ok_inv in H as ([[[st1 pos1] loss] ps] & Hb & H).
    apply IH in H as (losses & psnrs & Hr).
    exists (loss :: losses), (ps :: psnrs). econstructor; eassumption.
Qed.

Lemma eval_loop_frame (batches : list tensor) (st st' : net_state B)
      (pos pos' : nat) (acc pacc total ptotal : Q) (n steps : nat) :
  eval_loop g noise_level st pos batches acc pacc n
  = Ok (st', pos', total, ptotal, steps) ->
  st' = st.
Proof.
  intros H. apply eval_loop_run in H as (losses & psnrs & Hr).
  eapply eval_run_frame, Hr.
Qed.

(** The mean of the accumulated total. *)
Lemma py_div_mean (total : Q) (l : list Q) (n : nat) :
  (total == 0 + Qsum l)%Q -> length l = n -> n <> 0 ->
  exists m, py_div total (0 + n) = Ok m /\ (m == mean l)%Q.
Proof.
  intros Ht Hl Hn. simpl. rewrite py_div_pos by assumption.
  eexists. split; [reflexivity|].
  unfold mean. rewrite Hl, Ht.
  apply Qmult_comp; [ring | reflexivity].
Qed.

Hypothesis net_shape : shape_preserving B.

(** With a shape-preserving network every batch goes through. *)
Lemma train_run_exists (batches : list tensor) :
  forall (st : net_state B) pos,
  exists losses st' pos',
    train_run g noise_level st pos batches losses st' pos'.
Proof.
  induction batches as [|data rest IH]; intros st pos.
  - exists [], st, pos. constructor.
  - destruct (train_batch_spec g noise_level net_shape st pos data)
      as (st1 & loss & Hb & _).
    destruct (IH st1 (snd (normal_ g noise_level data pos)))
      as (losses & st' & pos' & Hr).
    exists (loss :: losses), st', pos'. econstructor; eassumption.
Qed.

Lemma eval_run_exists (batches : list tensor) :
  Forall (fun data => data <> []) batches ->
  forall (st : net_state B) pos,
  exists losses psnrs pos',
    eval_run g noise_level st pos batches losses psnrs st pos'.
Proof.
  induction 1 as [|data rest Hd _ IH]; intros st pos.
  - exists [], [], pos. constructor.
  - destruct (eval_batch_spec g noise_level net_shape st pos Hd)
      as (loss & ps & Hb & _).
    destruct (IH st (snd (normal_ g noise_level data pos)))
      as (losses & psnrs & pos' & Hr).
    exists (loss :: losses), (ps :: psnrs), pos'. econstructor; eassumption.
Qed.

End LoopFacts.

(** ** The loader *)

Lemma mapM_Forall2 (A C : Type) (f : A -> result C) (l : list A) (r : list C) :
  mapM f l = Ok r -> Forall2 (fun a c => f a = Ok c) l r.
Proof.
  revert r. induction l as [|a l IH]; intros r H; simpl in H.
  - inversion H. constructor.
  - apply bind_Ok_inv in H as (c & Hc & H).
    apply bind_Ok_inv in H as (cs & Hcs & H).
    inversion H; subst. constructor; [assumption | apply IH, Hcs].
Qed.

Lemma mapM_length (A C : Type) (f : A -> result C) (l : list A) (r : list C) :
  mapM f l = Ok r -> length r = length l.
Proof.
  intros H. apply mapM_Forall2 in H.
  symmetry. eapply Forall2_length, H.
Qed.

Lemma mapM_app (A C : Type) (f : A -> result C) (l1 l2 : list A)
      (r1 r2 : list C) :
  mapM f l1 = Ok r1 -> mapM f l2 = Ok r2 -> mapM f (l1 ++ l2) = Ok (r1 ++ r2).
Proof.
  revert r1. induction l1 as [|a l1 IH]; intros r1 H1 H2; simpl in *.
  - inversion H1. exact H2.
  - apply bind_Ok_inv in H1 as (c & Hc & H1).
    apply bind_Ok_inv in H1 as (cs & Hcs & H1).
    inversion H1; subst.
    rewrite Hc. simpl. rewrite (IH cs Hcs H2). reflexivity.
Qed.

(** Reading batch after batch reads the indices in sampler order. *)
Lemma mapM_concat (A C : Type) (f : A -> result C) (ls : list (list A))
      (rs : list (list C)) :
  mapM (fun l => mapM f l) ls = Ok rs -> mapM f (concat ls) = Ok (concat rs).
Proof.
  revert rs. induction ls as [|l ls IH]; intros rs H; simpl in H.
  - inversion H. reflexivity.
  - apply bind_Ok_inv in H as (r & Hr & H).
    apply bind_Ok_inv in H as (rs' & Hrs & H).
    inversion H; subst. simpl.
    apply mapM_app; [assumption | apply IH, Hrs].
Qed.

(** The batch sampler cuts the index sequence and loses nothing. *)
Lemma batch_sampler_concat (bs : nat) (idxs batch : list nat) :
  concat (batch_sampler bs batch idxs) = batch ++ idxs.
Proof.
  revert batch. induction idxs as [|i rest IH]; intros batch; simpl.
  - destruct batch; simpl; [reflexivity | rewrite app_nil_r; reflexivity].
  - destruct (Nat.eqb (length (batch ++ [i])) bs); simpl.
    + rewrite IH. simpl. rewrite <- app_assoc. reflexivity.
    + rewrite IH, <- app_assoc. reflexivity.
Qed.

Lemma batch_sampler_nonempty (bs : nat) (idxs batch : list nat) :
  Forall (fun b => b <> []) (batch_sampler bs batch idxs).
Proof.
  revert batch. induction idxs as [|i rest IH]; intros batch; simpl.
  - destruct batch; constructor; [discriminate | constructor].
  - destruct (Nat.eqb (length (batch ++ [i])) bs).
    + constructor; [|apply IH].
      intros E. apply app_eq_nil in E as [_ E]. discriminate.
    + apply IH.
Qed.

Lemma DataLoader_iter_order (w : world) (dl : DataLoader)
      (draw : nat -> list nat) (batches : list tensor) :
  DataLoader_iter w dl draw = Ok batches ->
  mapM (Dataset_getitem w (dataset dl)) (sampler dl draw) = Ok (concat batches).
Proof.
  unfold DataLoader_iter. intros H.
  apply mapM_concat in H.
  rewrite batch_sampler_concat in H. exact H.
Qed.

(** The loader never delivers an empty batch. *)
Lemma DataLoader_iter_nonempty (w : world) (dl : DataLoader)
      (draw : nat -> list nat) (batches : list tensor) :
  DataLoader_iter w dl draw = Ok batches ->
  Forall (fun data => data <> []) batches.
Proof.
  unfold DataLoader_iter. intros H.
  apply mapM_Forall2 in H.
  pose proof (batch_sampler_nonempty (batch_size dl) (sampler dl draw) []) as Hne.
  induction H as [|idxs data ls rs Hd _ IH]; [constructor|].
  inversion Hne as [|? ? Hi Hrest]; subst.
  constructor; [|apply IH, Hrest].
  apply mapM_length in Hd. intros ->.
  destruct idxs; [congruence | discriminate].
Qed.

(** ** One epoch *)

Section EpochFacts.
Variable B : Backend.
Variable g : nat -> Q.
Variable noise_level : Q.
Variable log_dir : string.

Lemma end_of_epoch_history (s : run_state B) (tl vl ps : Q) :
  history (end_of_epoch log_dir s tl vl ps)
  = {| hist_model := hist_model (history s);
       hist_train := hist_train (history s) ++ [tl];
       hist_val := hist_val (history s) ++ [vl];
       hist_psnr := hist_psnr (history s) ++ [ps] |}.
Proof.
  unfold end_of_epoch, save_epoch_stats, scheduler_step, save_if_best.
  destruct (Qltb vl (best_val_loss s)); simpl;
    destruct (plateau_step B (plateau s) vl (lr (net s))); reflexivity.
Qed.

Lemma end_of_epoch_best (s : run_state B) (tl vl ps : Q) :
  best_val_loss (end_of_epoch log_dir s tl vl ps)
  = if Qltb vl (best_val_loss s) then vl else best_val_loss s.
Proof.
  unfold end_of_epoch, save_epoch_stats, scheduler_step, save_if_best.
  destruct (Qltb vl (best_val_loss s)); simpl;
    destruct (plateau_step B (plateau s) vl (lr (net s))); reflexivity.
Qed.

Lemma end_of_epoch_disk (s : run_state B) (tl vl ps : Q) :
  disk (end_of_epoch log_dir s tl vl ps)
  = if Qltb vl (best_val_loss s)
    then (path_join log_dir "best_model.npy", Pickled B (history s))
         :: (path_join log_dir "best_model.pt", SavedModel B (weights (net s)))
         :: disk s
    else disk s.
Proof.
  unfold end_of_epoch, save_epoch_stats, scheduler_step, save_if_best.
  destruct (Qltb vl (best_val_loss s)); simpl;
    destruct (plateau_step B (plateau s) vl (lr (net s))); reflexivity.
Qed.

(** The end of the epoch touches the learning rate only. *)
Lemma end_of_epoch_net (s : run_state B) (tl vl ps : Q) :
  weights (net (end_of_epoch log_dir s tl vl ps)) = weights (net s)
  /\ opt (net (end_of_epoch log_dir s tl vl ps)) = opt (net s)
  /\ grad (net (end_of_epoch log_dir s tl vl ps)) = grad (net s)
  /\ lr (net (end_of_epoch log_dir s tl vl ps))
     = snd (plateau_step B (plateau s) vl (lr (net s))).
Proof.
  unfold end_of_epoch, save_epoch_stats, scheduler_step, save_if_best.
  destruct (Qltb vl (best_val_loss s)); simpl;
    destruct (plateau_step B (plateau s) vl (lr (net s))); simpl; auto.
Qed.

Lemma end_of_epoch_best_le (s : run_state B) (tl vl ps : Q) :
  (best_val_loss (end_of_epoch log_dir s tl vl ps) <= best_val_loss s)%Q.
Proof.
  rewrite end_of_epoch_best.
  destruct (Qltb vl (best_val_loss s)) eqn:E.
  - apply Qlt_le_weak, Qltb_lt, E.
  - apply Qle_refl.
Qed.

Variable w : world.
Variable rng : entropy.
Variables train_loader val_loader : DataLoader.

Let body := @epoch_body B g noise_level log_dir w rng train_loader val_loader.
Let loop := @epochs_loop B g noise_level log_dir w rng train_loader val_loader.

(** Everything a completed epoch went through. *)
Lemma epoch_body_inv (s s' : run_state B) (epoch : nat) :
  body s epoch = Ok s' ->
  exists tb vb st1 pos1 ttot tn pos2 vtot ptot vn tl vl ps,
    DataLoader_iter w train_loader (randperm rng epoch) = Ok tb
    /\ train_pass g noise_level (net s) (rng_pos s) tb = Ok (st1, pos1, ttot, tn)
    /\ DataLoader_iter w val_loader (randperm rng epoch) = Ok vb
    /\ eval_pass g noise_level st1 pos1 vb
       = Ok (set_training false st1, pos2, vtot, ptot, vn)
    /\ py_div ttot tn = Ok tl
    /\ py_div vtot vn = Ok vl
    /\ py_div ptot vn = Ok ps
    /\ s' = end_of_epoch log_dir (with_net s (set_training false st1) pos2)
                         tl vl ps.
Proof.
  unfold body, epoch_body. intros H.
  apply bind_Ok_inv in H as (tb & Htb & H).
  apply bind_Ok_inv in H as ([[[st1 pos1] ttot] tn] & Htp & H).
  apply bind_Ok_inv in H as (vb & Hvb & H).
  apply bind_Ok_inv in H as ([[[[st2 pos2] vtot] ptot] vn] & Hvp & H).
  apply bind_Ok_inv in H as (tl & Htl & H).
  apply bind_Ok_inv in H as (vl & Hvl & H).
  apply bind_Ok_inv in H as (ps & Hps & H).
  inversion H; subst.
  assert (st2 = set_training false st1) as ->
      by (unfold eval_pass in Hvp; eapply eval_loop_frame, Hvp).
  exists tb, vb, st1, pos1, ttot, tn, pos2, vtot, ptot, vn, tl, vl, ps.
  repeat split; assumption.
Qed.

Lemma epoch_body_end (s s' : run_state B) (epoch : nat) :
  body s epoch = Ok s' ->
  exists st pos tl vl ps,
    s' = end_of_epoch log_dir (with_net s st pos) tl vl ps.
Proof.
  intros H. apply epoch_body_inv in H
    as (tb & vb & st1 & pos1 & ttot & tn & pos2 & vtot & ptot & vn
        & tl & vl & ps & _ & _ & _ & _ & _ & _ & _ & ->).
  eauto 6.
Qed.

Lemma epochs_loop_app (r1 r2 : list nat) (s : run_state B) :
  loop s (r1 ++ r2) = bind (loop s r1) (fun s1 => loop s1 r2).
Proof.
  unfold loop. revert s. induction r1 as [|e r1 IH]; intros s; simpl.
  - reflexivity.
  - destruct (epoch_body g noise_level log_dir w rng train_loader val_loader s e);
      simpl; [apply IH | reflexivity].
Qed.

(** After a range of epochs the marker is no larger and each history
    sequence has grown by the number of epochs. *)
Lemma epochs_loop_invariant (range : list nat) :
  forall s s' : run_state B,
    loop s range = Ok s' ->
    (best_val_loss s' <= best_val_loss s)%Q
    /\ hist_model (history s') = hist_model (history s)
    /\ length (hist_train (history s'))
       = length (hist_train (history s)) + length range
    /\ length (hist_val (history s'))
       = length (hist_val (history s)) + length range
    /\ length (hist_psnr (history s'))
       = length (hist_psnr (history s)) + length range.
Proof.
  unfold loop.
  induction range as [|e range IH]; intros s s' H; simpl in H.
  - inversion H; subst. rewrite !Nat.add_0_r.
    repeat split; try reflexivity. apply Qle_refl.
  - apply bind_Ok_inv in H as (s1 & H1 & H).
    apply IH in H as (Hb & Hm & Ht & Hv & Hp).
    apply epoch_body_end in H1 as (st & pos & tl & vl & ps & ->).
    rewrite end_of_epoch_history in Hm, Ht, Hv, Hp. simpl in Hm, Ht, Hv, Hp.
    rewrite length_app in Ht, Hv, Hp. simpl in Ht, Hv, Hp.
    repeat split.
    + eapply Qle_trans; [exact Hb|].
      apply (end_of_epoch_best_le (with_net s st pos)).
    + exact Hm.
    + simpl. lia.
    + simpl. lia.
    + simpl. lia.
Qed.

Hypothesis net_shape : shape_preserving B.

(** With a shape-preserving network and loaders that deliver at least
    one batch each, the epoch completes, and its three statistics are the
    means over the traces of its batches. *)
Lemma epoch_body_spec (s : run_state B) (epoch : nat) (tb vb : list tensor) :
  DataLoader_iter w train_loader (randperm rng epoch) = Ok tb ->
  DataLoader_iter w val_loader (randperm rng epoch) = Ok vb ->
  tb <> [] -> vb <> [] ->
  exists st1 pos1 pos2 losses vlosses psnrs tl vl ps,
    train_run g noise_level (set_training true (net s)) (rng_pos s) tb
              losses st1 pos1
    /\ eval_run g noise_level (set_training false st1) pos1 vb
                vlosses psnrs (set_training false st1) pos2
    /\ (tl == mean losses)%Q
    /\ (vl == mean vlosses)%Q
    /\ (ps == mean psnrs)%Q
    /\ body s epoch
       = Ok (end_of_epoch log_dir (with_net s (set_training false st1) pos2)
                          tl vl ps).
Proof.
  intros Htb Hvb Htne Hvne.
  destruct (train_run_exists g noise_level net_shape tb
              (set_training true (net s)) (rng_pos s))
    as (losses & st1 & pos1 & Htr).
  destruct (eval_run_exists g noise_level net_shape
              (DataLoader_iter_nonempty _ _ _ Hvb)
              (set_training false st1) pos1)
    as (vlosses & psnrs & pos2 & Her).
  destruct (train_run_loop Htr 0%Q 0) as (ttot & Htl & Hts & Htlen).
  destruct (eval_run_loop Her 0%Q 0%Q 0)
    as (vtot & ptot & Hel & Hvs & Hps & Hvlen & Hplen).
  destruct (@py_div_mean _ _ (length tb) Hts Htlen) as (tl & Hdt & Hmt).
  { destruct tb; [congruence | discriminate]. }
  destruct (@py_div_mean _ _ (length vb) Hvs Hvlen) as (vl & Hdv & Hmv).
  { destruct vb; [congruence | discriminate]. }
  destruct (@py_div_mean _ _ (length vb) Hps Hplen) as (ps & Hdp & Hmp).
  { destruct vb; [congruence | discriminate]. }
  exists st1, pos1, pos2, losses, vlosses, psnrs, tl, vl, ps.
  repeat split; try assumption.
  unfold body, epoch_body, train_pass, eval_pass.
  change (0 + length tb) with (length tb) in *.
  change (0 + length vb) with (length vb) in *.
  rewrite Htb. simpl. rewrite Htl. simpl.
  rewrite Hvb. simpl. rewrite Hel. simpl.
  rewrite Hdt. simpl. rewrite Hdv. simpl. rewrite Hdp. reflexivity.
Qed.

End EpochFacts.

(** ** The concrete instance *)

Lemma scale_shape (w0 : Q) (x : tensor) : shape (Toy.scale w0 x) = shape x.
Proof.
  unfold Toy.scale, shape. rewrite map_map.
  apply map_ext. intros row. apply length_map.
Qed.

Lemma toy_shape_preserving (w0 : Q) : shape_preserving (Toy.backend w0).
Proof.
  intros mode p x. apply same_shape_eq. simpl. apply scale_shape.
Qed.

Lemma toy_setup (w0 : Q) (ep : nat) :
  main_setup (Toy.backend w0) Toy.world0 Toy.rng0 (Toy.args0 2 ep)
  = Ok (Toy.state0 w0, Toy.train_loader, Toy.val_loader).
Proof. reflexivity. Qed.

Lemma toy_first_epoch :
  main_epoch Toy.world0 Toy.rng0 (Toy.args0 2 2) Toy.train_loader
             Toy.val_loader (Toy.state0 (1 # 2)) 0
  = Ok Toy.state1.
Proof. vm_cast_no_check (eq_refl (Ok Toy.state1)). Qed.

Lemma toy_second_epoch :
  main_epoch Toy.world0 Toy.rng0 (Toy.args0 2 2) Toy.train_loader
             Toy.val_loader Toy.state1 1
  = Ok Toy.state2.
Proof. vm_cast_no_check (eq_refl (Ok Toy.state2)). Qed.

Lemma toy_first_range :
  main_loop Toy.world0 Toy.rng0 (Toy.args0 2 2) Toy.train_loader
            Toy.val_loader (Toy.state0 (1 # 2)) (seq 0 1)
  = Ok Toy.state1.
Proof. vm_cast_no_check (eq_refl (Ok Toy.state1)). Qed.

Lemma toy_far_epoch :
  main_epoch Toy.world0 Toy.rng0 (Toy.args0 2 1) Toy.train_loader
             Toy.val_loader (Toy.state0 40) 0
  = Ok Toy.far_state1.
Proof. vm_cast_no_check (eq_refl (Ok Toy.far_state1)). Qed.

Lemma toy_far_main :
  main Toy.far Toy.world0 Toy.rng0 (Toy.args0 2 1)
  = Ok (save_final (Toy.args0 2 1) Toy.far_state1).
Proof.
  vm_cast_no_check (eq_refl (Ok (save_final (Toy.args0 2 1) Toy.far_state1))).
Qed.

(** * The claims *)

(** C1.  Under a shape-preserving network, every training batch and every
    validation batch goes through and its loss is the sum of the squared
    differences between the predicted residual and the noise, divided by
    the number of examples of the batch; on P = [1, 3], N = [0, 1] the
    criterion gives 5 and the loss 5/2.  An epoch whose loaders deliver
    [tb] and [vb] completes, and the training loss and validation loss it
    appends to the history are the arithmetic means of the per-batch losses
    of its training trace and of its validation trace. *)
Theorem batch_loss_is_sse_per_example
        (B : Backend) (g : nat -> Q) (noise_level : Q) (log_dir : string)
        (w : world) (rng : entropy) (train_loader val_loader : DataLoader)
        (s : run_state B) (epoch : nat) (tb vb : list tensor) :
  shape_preserving B ->
  DataLoader_iter w train_loader (randperm rng epoch) = Ok tb ->
  DataLoader_iter w val_loader (randperm rng epoch) = Ok vb ->
  tb <> [] -> vb <> [] ->
  (forall (st : net_state B) (pos : nat) (data : tensor),
      exists st' pos' loss,
        train_batch g noise_level st pos data = Ok (st', pos', loss)
        /\ (loss == spec_batch_loss (batch_preds g noise_level st pos data)
                                    (batch_noise g noise_level pos data))%Q)
  /\ (forall (st : net_state B) (pos : nat) (data : tensor),
         data <> [] ->
         exists pos' val_loss batch_psnr,
           eval_batch g noise_level st pos data
           = Ok (st, pos', val_loss, batch_psnr)
           /\ (val_loss
               == spec_batch_loss (batch_preds g noise_level st pos data)
                                  (batch_noise g noise_level pos data))%Q)
  /\ (exists sse, criterion [[1]; [3]]%Q [[0]; [1]]%Q = Ok sse
                  /\ (sse == 5)%Q
                  /\ (sse / of_nat 2 == 5 # 2)%Q
                  /\ (spec_batch_loss [[1]; [3]] [[0]; [1]] == 5 # 2)%Q)
  /\ exists st1 pos1 st2 pos2 losses vlosses psnrs s' tl vl,
      train_run g noise_level (set_training true (net s)) (rng_pos s) tb
                losses st1 pos1
      /\ eval_run g noise_level (set_training false st1) pos1 vb
                  vlosses psnrs st2 pos2
      /\ epoch_body g noise_level log_dir w rng train_loader val_loader s epoch
         = Ok s'
      /\ hist_train (history s') = hist_train (history s) ++ [tl]
      /\ hist_val (history s') = hist_val (history s) ++ [vl]
      /\ (tl == mean losses)%Q
      /\ (vl == mean vlosses)%Q.
Proof.
  intros net_shape Htb Hvb Htne Hvne.
  split; [|split; [|split]].
  - intros st pos data.
    destruct (train_batch_spec g noise_level net_shape st pos data)
      as (st' & loss & Hb & Hl & _).
    eauto.
  - intros st pos data Hd.
    destruct (eval_batch_spec g noise_level net_shape st pos Hd)
      as (vl & ps & Hb & Hl & _).
    eauto.
  - eexists. split; [reflexivity|].
    repeat split; vm_compute; reflexivity.
  - destruct (epoch_body_spec g noise_level log_dir w rng train_loader val_loader
                              net_shape s epoch Htb Hvb Htne Hvne)
      as (st1 & pos1 & pos2 & losses & vlosses & psnrs & tl & vl & ps
          & Htr & Her & Hmt & Hmv & _ & Hbody).
    exists st1, pos1, (set_training false st1), pos2, losses, vlosses, psnrs.
    eexists. exists tl, vl.
    split; [exact Htr|]. split; [exact Her|]. split; [exact Hbody|].
    rewrite end_of_epoch_history. simpl.
    repeat split; assumption.
Qed.

Lemma batch_loss_is_sse_per_example_witness :
  exists tl vl s',
    epoch_body (gauss Toy.rng0) (1 # 10)%Q "logs" Toy.world0 Toy.rng0
               Toy.train_loader Toy.val_loader (Toy.state0 (1 # 2)) 0
    = Ok s'
    /\ hist_train (history s') = [tl]
    /\ hist_val (history s') = [vl].
Proof.
  destruct (@batch_loss_is_sse_per_example
              (Toy.backend (1 # 2)) (gauss Toy.rng0) (1 # 10)%Q "logs"
              Toy.world0 Toy.rng0 Toy.train_loader Toy.val_loader
              (Toy.state0 (1 # 2)) 0 Toy.train_batches0 Toy.val_batches0)
    as (_ & _ & _ & st1 & pos1 & st2 & pos2 & losses & vlosses & psnrs
        & s' & tl & vl & _ & _ & Hbody & Ht & Hv & _).
  - apply toy_shape_preserving.
  - vm_compute. reflexivity.
  - vm_compute. reflexivity.
  - discriminate.
  - discriminate.
  - exists tl, vl, s'. repeat split; assumption.
Defined.

(** C7.  Under a shape-preserving network, every non-empty validation
    batch goes through, and the PSNR the runner adds for it is the
    arithmetic mean, over the images of the batch, of the library PSNR at
    data range 1 between the clean image and the entry-wise clamp to [0, 1]
    of corrupted input minus predicted residual.  An epoch whose loaders
    deliver [tb] and [vb] completes, and the validation loss and the PSNR
    it appends to the history are the arithmetic means of the per-batch
    losses and of the per-batch PSNRs of its validation trace. *)
Theorem eval_psnr_of_clamped_residual
        (B : Backend) (g : nat -> Q) (noise_level : Q) (log_dir : string)
        (w : world) (rng : entropy) (train_loader val_loader : DataLoader)
        (s : run_state B) (epoch : nat) (tb vb : list tensor) :
  shape_preserving B ->
  DataLoader_iter w train_loader (randperm rng epoch) = Ok tb ->
  DataLoader_iter w val_loader (randperm rng epoch) = Ok vb ->
  tb <> [] -> vb <> [] ->
  (forall (st : net_state B) (pos : nat) (data : tensor),
      data <> [] ->
      exists pos' val_loss batch_psnr,
        eval_batch g noise_level st pos data
        = Ok (st, pos', val_loss, batch_psnr)
        /\ tensor_sub (batch_noisy g noise_level pos data)
                      (batch_preds g noise_level st pos data)
           = Ok (map2 (map2 Qminus) (batch_noisy g noise_level pos data)
                      (batch_preds g noise_level st pos data))
        /\ clamp (map2 (map2 Qminus) (batch_noisy g noise_level pos data)
                       (batch_preds g noise_level st pos data)) 0 1
           = spec_denoised (batch_noisy g noise_level pos data)
                           (batch_preds g noise_level st pos data)
        /\ (batch_psnr
            == spec_batch_psnr B data
                 (spec_denoised (batch_noisy g noise_level pos data)
                                (batch_preds g noise_level st pos data)))%Q)
  /\ exists (st1 : net_state B) pos1 pos2 vlosses psnrs s' vl ps,
      eval_run g noise_level (set_training false st1) pos1 vb
               vlosses psnrs (set_training false st1) pos2
      /\ epoch_body g noise_level log_dir w rng train_loader val_loader s epoch
         = Ok s'
      /\ hist_val (history s') = hist_val (history s) ++ [vl]
      /\ hist_psnr (history s') = hist_psnr (history s) ++ [ps]
      /\ (vl == mean vlosses)%Q
      /\ (ps == mean psnrs)%Q.
Proof.
  intros net_shape Htb Hvb Htne Hvne. split.
  - intros st pos data Hd.
    destruct (eval_batch_spec g noise_level net_shape st pos Hd)
      as (vl & ps & Hb & _ & Hp).
    exists (snd (normal_ g noise_level data pos)), vl, ps.
    split; [exact Hb|]. split; [|split; [apply clamp_sub | exact Hp]].
    apply tensor_map2_same.
    rewrite (batch_preds_shape g noise_level net_shape st pos data).
    apply batch_noisy_shape.
  - destruct (epoch_body_spec g noise_level log_dir w rng train_loader val_loader
                              net_shape s epoch Htb Hvb Htne Hvne)
      as (st1 & pos1 & pos2 & losses & vlosses & psnrs & tl & vl & ps
          & _ & Her & _ & Hmv & Hmp & Hbody).
    exists st1, pos1, pos2, vlosses, psnrs.
    eexists. exists vl, ps.
    split; [exact Her|]. split; [exact Hbody|].
    rewrite end_of_epoch_history. simpl.
    repeat split; assumption.
Qed.

Lemma eval_psnr_of_clamped_residual_witness :
  exists vl ps s',
    epoch_body (gauss Toy.rng0) (1 # 10)%Q "logs" Toy.world0 Toy.rng0
               Toy.train_loader Toy.val_loader (Toy.state0 (1 # 2)) 0
    = Ok s'
    /\ hist_val (history s') = [vl]
    /\ hist_psnr (history s') = [ps].
Proof.
  destruct (@eval_psnr_of_clamped_residual
              (Toy.backend (1 # 2)) (gauss Toy.rng0) (1 # 10)%Q "logs"
              Toy.world0 Toy.rng0 Toy.train_loader Toy.val_loader
              (Toy.state0 (1 # 2)) 0 Toy.train_batches0 Toy.val_batches0)
    as (_ & st1 & pos1 & pos2 & vlosses & psnrs & s' & vl & ps
        & _ & Hbody & Hv & Hp & _).
  - apply toy_shape_preserving.
  - vm_compute. reflexivity.
  - vm_compute. reflexivity.
  - discriminate.
  - discriminate.
  - exists vl, ps, s'. repeat split; assumption.
Defined.

(** C8.  An evaluation pass that returns hands back the parameters, the
    gradient buffers, the optimizer state and the learning rate it was
    started with, whatever the batches and the network; only the
    train/eval flag is different.  In a completed epoch the parameters and
    the optimizer state at the end of the epoch are those the training pass
    left: neither the evaluation pass nor the end-of-epoch bookkeeping
    changes them (the scheduler rewrites the learning rate only). *)
Theorem eval_pass_leaves_model_and_optimizer
        (B : Backend) (g : nat -> Q) (noise_level : Q) (log_dir : string)
        (w : world) (rng : entropy) (train_loader val_loader : DataLoader)
        (s s' : run_state B) (epoch : nat) :
  epoch_body g noise_level log_dir w rng train_loader val_loader s epoch = Ok s' ->
  (forall (st st' : net_state B) pos batches pos' vtot ptot vn,
      eval_pass g noise_level st pos batches = Ok (st', pos', vtot, ptot, vn) ->
      weights st' = weights st /\ opt st' = opt st
      /\ grad st' = grad st /\ lr st' = lr st /\ training st' = false)
  /\ exists tb vb st1 pos1 ttot tn st2 pos2 vtot ptot vn,
      DataLoader_iter w train_loader (randperm rng epoch) = Ok tb
      /\ train_pass g noise_level (net s) (rng_pos s) tb = Ok (st1, pos1, ttot, tn)
      /\ DataLoader_iter w val_loader (randperm rng epoch) = Ok vb
      /\ eval_pass g noise_level st1 pos1 vb = Ok (st2, pos2, vtot, ptot, vn)
      /\ weights st2 = weights st1 /\ opt st2 = opt st1
      /\ weights (net s') = weights st1 /\ opt (net s') = opt st1.
Proof.
  intros H. split.
  - intros st st' pos batches pos' vtot ptot vn He.
    unfold eval_pass in He. apply eval_loop_frame in He. subst st'.
    repeat split; reflexivity.
  - apply epoch_body_inv in H
      as (tb & vb & st1 & pos1 & ttot & tn & pos2 & vtot & ptot & vn
          & tl & vl & ps & Htb & Htp & Hvb & Hvp & _ & _ & _ & ->).
    exists tb, vb, st1, pos1, ttot, tn, (set_training false st1), pos2,
      vtot, ptot, vn.
    destruct (end_of_epoch_net log_dir
                (with_net s (set_training false st1) pos2) tl vl ps)
      as (Hw & Ho & _).
    repeat split; assumption.
Qed.

Lemma eval_pass_leaves_model_and_optimizer_witness :
  exists st1 pos1 ttot tn,
    train_pass (gauss Toy.rng0) (Args.noise_level (Toy.args0 2 2) / 255)%Q
               (net (Toy.state0 (1 # 2))) 0 Toy.train_batches0
    = Ok (st1, pos1, ttot, tn)
    /\ weights (net Toy.state1) = weights st1
    /\ opt (net Toy.state1) = opt st1.
Proof.
  destruct (@eval_pass_leaves_model_and_optimizer
              Toy.near (gauss Toy.rng0)
              (Args.noise_level (Toy.args0 2 2) / 255)%Q "logs"
              Toy.world0 Toy.rng0 Toy.train_loader Toy.val_loader
              (Toy.state0 (1 # 2)) Toy.state1 0)
    as (_ & tb & vb & st1 & pos1 & ttot & tn & st2 & pos2 & vtot & ptot & vn
        & Htb & Htp & _ & _ & _ & _ & Hw & Ho).
  - exact toy_first_epoch.
  - exists st1, pos1, ttot, tn.
    assert (tb = Toy.train_batches0) as <-
        by (vm_compute in Htb; inversion Htb; reflexivity).
    repeat split; assumption.
Defined.

(** What a completed set-up built. *)
Lemma main_setup_inv (B : Backend) (w : world) (rng : entropy) (args : Args.t)
      (s0 : run_state B) (train_loader val_loader : DataLoader) :
  main_setup B w rng args = Ok (s0, train_loader, val_loader) ->
  (exists train_file val_file,
      h5_open w (Args.train_set args) = Ok train_file
      /\ h5_open w (Args.val_set args) = Ok val_file
      /\ train_loader
         = {| dataset := {| file_name := Args.train_set args;
                            keys := np_shuffle rng 0 (map fst train_file) |};
              batch_size := Args.batch_size args; shuffle := true |}
      /\ val_loader
         = {| dataset := {| file_name := Args.val_set args;
                            keys := np_shuffle rng 1 (map fst val_file) |};
              batch_size := Args.batch_size args; shuffle := false |})
  /\ hist_train (history s0) = []
  /\ hist_val (history s0) = []
  /\ hist_psnr (history s0) = []
  /\ best_val_loss s0 = 999%Q
  /\ disk s0 = [(path_join (Args.log_dir args) "model.npy",
                 Pickled B (history s0))].
Proof.
  unfold main_setup. intros H.
  apply bind_Ok_inv in H as (_ & _ & H).
  apply bind_Ok_inv in H as (_ & _ & H).
  apply bind_Ok_inv in H as (td & Htd & H).
  apply bind_Ok_inv in H as (vd & Hvd & H).
  apply bind_Ok_inv in H as (tl & Htl & H).
  apply bind_Ok_inv in H as (vl & Hvl & H).
  apply bind_Ok_inv in H as (shp & _ & H).
  inversion H; subst; clear H. simpl.
  unfold Dataset_init in Htd, Hvd.
  apply bind_Ok_inv in Htd as (tf & Htf & Htd).
  apply bind_Ok_inv in Hvd as (vf & Hvf & Hvd).
  inversion Htd; subst; clear Htd. inversion Hvd; subst; clear Hvd.
  unfold DataLoader_init in Htl, Hvl.
  destruct (Args.batch_size args) as [|bs] eqn:Ebs; [discriminate|].
  inversion Htl; subst; clear Htl. inversion Hvl; subst; clear Hvl.
  repeat split; try reflexivity.
  exists tf, vf. repeat split; assumption.
Qed.

Lemma cons2_neq (A : Type) (a b : A) (l : list A) : a :: b :: l <> l.
Proof.
  intros E. apply (f_equal (@length A)) in E. simpl in E. lia.
Qed.

(** C2.  From any state, after any completed range of epochs the marker is
    no larger than before, and so after one more completed epoch.  In that
    epoch, with [v] the validation loss it appends to the history: if [v]
    is strictly below the marker, the marker becomes [v] and the best
    snapshot of the history and the best checkpoint are written; if it is
    not (in particular if it equals the marker), the marker and the files
    are as they were.  The files change in the epoch exactly when [v] is
    strictly below the marker. *)
Theorem best_marker_non_increasing
        (B : Backend) (g : nat -> Q) (noise_level : Q) (log_dir : string)
        (w : world) (rng : entropy) (train_loader val_loader : DataLoader)
        (s0 s1 s2 : run_state B) (range : list nat) (epoch : nat) :
  epochs_loop g noise_level log_dir w rng train_loader val_loader s0 range
  = Ok s1 ->
  epoch_body g noise_level log_dir w rng train_loader val_loader s1 epoch
  = Ok s2 ->
  (best_val_loss s1 <= best_val_loss s0)%Q
  /\ (best_val_loss s2 <= best_val_loss s1)%Q
  /\ exists v,
      hist_val (history s2) = hist_val (history s1) ++ [v]
      /\ ((v < best_val_loss s1)%Q ->
          best_val_loss s2 = v
          /\ disk s2
             = (path_join log_dir "best_model.npy", Pickled B (history s1))
               :: (path_join log_dir "best_model.pt",
                   SavedModel B (weights (net s2)))
               :: disk s1)
      /\ ((best_val_loss s1 <= v)%Q ->
          best_val_loss s2 = best_val_loss s1 /\ disk s2 = disk s1)
      /\ ((v == best_val_loss s1)%Q ->
          best_val_loss s2 = best_val_loss s1 /\ disk s2 = disk s1)
      /\ (disk s2 <> disk s1 <-> (v < best_val_loss s1)%Q).
Proof.
  intros Hloop Hbody.
  apply epochs_loop_invariant in Hloop as (Hle & _).
  split; [exact Hle|].
  apply epoch_body_end in Hbody as (st & pos & tl & v & ps & ->).
  split; [apply (end_of_epoch_best_le log_dir (with_net s1 st pos))|].
  exists v.
  rewrite end_of_epoch_history, end_of_epoch_best, end_of_epoch_disk.
  destruct (end_of_epoch_net log_dir (with_net s1 st pos) tl v ps) as (-> & _).
  simpl.
  destruct (Qltb v (best_val_loss s1)) eqn:E.
  - apply Qltb_lt in E.
    split; [reflexivity|]. split; [auto|].
    split; [intros Hge; exfalso; exact (Qlt_not_le _ _ E Hge)|].
    split.
    + intros Heq. exfalso. rewrite Heq in E. exact (Qlt_irrefl _ E).
    + split; [intros _; exact E | intros _; apply cons2_neq].
  - apply Qltb_ge in E.
    split; [reflexivity|].
    split; [intros Hlt; exfalso; exact (Qlt_not_le _ _ Hlt E)|].
    split; [auto|]. split; [auto|].
    split; [intros Hne; congruence
           | intros Hlt; exfalso; exact (Qlt_not_le _ _ Hlt E)].
Qed.

Lemma best_marker_non_increasing_witness :
  (best_val_loss Toy.state1 <= best_val_loss (Toy.state0 (1 # 2)))%Q
  /\ (best_val_loss Toy.state2 <= best_val_loss Toy.state1)%Q.
Proof.
  destruct (@best_marker_non_increasing
              Toy.near (gauss Toy.rng0)
              (Args.noise_level (Toy.args0 2 2) / 255)%Q "logs"
              Toy.world0 Toy.rng0 Toy.train_loader Toy.val_loader
              (Toy.state0 (1 # 2)) Toy.state1 Toy.state2 [0] 1)
    as (H1 & H2 & _).
  - exact toy_first_range.
  - exact toy_second_epoch.
  - split; assumption.
Defined.

(** C9.  In a run of [main], let the first [j] epochs have completed and
    let epoch number [j + 1] complete with a new best model (the marker
    went down).  Then the epoch wrote the best snapshot and the best
    checkpoint, the snapshot is the history as it was before the epoch,
    each of its three sequences has exactly [j] entries, and the history in
    memory after the epoch has [j + 1]: the entries of the epoch itself are
    appended after the snapshot was written. *)
Theorem best_snapshot_excludes_own_epoch
        (B : Backend) (w : world) (rng : entropy) (args : Args.t)
        (s0 s s' : run_state B) (train_loader val_loader : DataLoader)
        (j : nat) :
  main_setup B w rng args = Ok (s0, train_loader, val_loader) ->
  main_loop w rng args train_loader val_loader s0 (seq 0 j) = Ok s ->
  main_epoch w rng args train_loader val_loader s j = Ok s' ->
  (best_val_loss s' < best_val_loss s)%Q ->
  exists h m,
    disk s' = (path_join (Args.log_dir args) "best_model.npy", Pickled B h)
              :: (path_join (Args.log_dir args) "best_model.pt", SavedModel B m)
              :: disk s
    /\ h = history s
    /\ length (hist_train h) = j
    /\ length (hist_val h) = j
    /\ length (hist_psnr h) = j
    /\ length (hist_train (history s')) = S j
    /\ length (hist_val (history s')) = S j
    /\ length (hist_psnr (history s')) = S j.
Proof.
  unfold main_loop, main_epoch. intros Hsetup Hloop Hbody Hbest.
  apply main_setup_inv in Hsetup as (_ & Ht0 & Hv0 & Hp0 & _).
  apply epochs_loop_invariant in Hloop as (_ & _ & Ht & Hv & Hp).
  rewrite Ht0, Hv0, Hp0, length_seq in *. simpl in Ht, Hv, Hp.
  apply epoch_body_end in Hbody as (st & pos & tl & v & ps & ->).
  rewrite end_of_epoch_best in Hbest.
  rewrite end_of_epoch_disk, end_of_epoch_history. simpl in *.
  destruct (Qltb v (best_val_loss s)) eqn:E.
  - exists (history s), (weights st).
    rewrite !length_app, Ht, Hv, Hp. simpl.
    repeat split; try reflexivity; lia.
  - exfalso. exact (Qlt_irrefl _ Hbest).
Qed.

Lemma best_snapshot_excludes_own_epoch_witness :
  exists h m,
    disk Toy.state2
    = ("logs/best_model.npy"%string, Pickled Toy.near h)
      :: ("logs/best_model.pt"%string, SavedModel Toy.near m)
      :: disk Toy.state1
    /\ length (hist_val h) = 1
    /\ length (hist_val (history Toy.state2)) = 2.
Proof.
  destruct (@best_snapshot_excludes_own_epoch
              Toy.near Toy.world0 Toy.rng0 (Toy.args0 2 2)
              (Toy.state0 (1 # 2)) Toy.state1 Toy.state2
              Toy.train_loader Toy.val_loader 1)
    as (h & m & Hd & _ & _ & Hv & _ & _ & Hv' & _).
  - reflexivity.
  - exact toy_first_range.
  - exact toy_second_epoch.
  - vm_compute. reflexivity.
  - exists h, m. repeat split; assumption.
Defined.

(** C10.  When the training store is there and the validation store is
    not, [main] raises at the second assertion, before any data is read
    and before the first epoch, and the message of the assertion carries
    the path of the training store, not the path that is missing. *)
Theorem missing_val_set_names_train_set
        (B : Backend) (w : world) (rng : entropy) (args : Args.t) :
  path_exists w (Args.train_set args) = true ->
  path_exists w (Args.val_set args) = false ->
  main_setup B w rng args
  = Raise (AssertionError
             ("Cannot find validation vectors file " ++ Args.train_set args))
  /\ main B w rng args
     = Raise (AssertionError
                ("Cannot find validation vectors file " ++ Args.train_set args)).
Proof.
  intros Ht Hv.
  assert (main_setup B w rng args
          = Raise (AssertionError
                     ("Cannot find validation vectors file "
                        ++ Args.train_set args))) as Hs.
  { unfold main_setup. rewrite Ht, Hv. reflexivity. }
  split; [exact Hs|].
  unfold main. rewrite Hs. reflexivity.
Qed.

Lemma missing_val_set_names_train_set_witness :
  main Toy.near Toy.world0 Toy.rng0 Toy.args_no_val
  = Raise (AssertionError "Cannot find validation vectors file train.h5").
Proof.
  apply (@missing_val_set_names_train_set
           Toy.near Toy.world0 Toy.rng0 Toy.args_no_val); reflexivity.
Defined.

Lemma pickled_lengths_In (B : Backend) (d : list (string * blob B))
      (path : string) (h : History) :
  In (path, Pickled B h) d ->
  In (length (hist_train h), length (hist_val h), length (hist_psnr h))
     (pickled_lengths d).
Proof.
  intros Hin. unfold pickled_lengths. apply in_flat_map.
  exists (path, Pickled B h). split; [assumption | left; reflexivity].
Qed.

(** C3, as stated, fails.  In the run of the concrete instance the first
    epoch completes and the history in memory holds its entries, yet no
    file written so far holds that history: the two history files on disk
    are the empty record written before the loop and the best snapshot,
    which was taken before the entries were appended. *)
Lemma history_not_written_every_epoch :
  main_setup Toy.near Toy.world0 Toy.rng0 (Toy.args0 2 2)
  = Ok (Toy.state0 (1 # 2), Toy.train_loader, Toy.val_loader)
  /\ main_epoch Toy.world0 Toy.rng0 (Toy.args0 2 2) Toy.train_loader
                Toy.val_loader (Toy.state0 (1 # 2)) 0
     = Ok Toy.state1
  /\ length (hist_train (history Toy.state1)) = 1
  /\ length (hist_val (history Toy.state1)) = 1
  /\ length (hist_psnr (history Toy.state1)) = 1
  /\ pickled_lengths (disk Toy.state1) = [(0, 0, 0); (0, 0, 0)]
  /\ forall path h,
      In (path, Pickled Toy.near h) (disk Toy.state1) ->
      h <> history Toy.state1.
Proof.
  split; [reflexivity|].
  split; [exact toy_first_epoch|].
  repeat split.
  intros path h Hin E. subst h.
  apply pickled_lengths_In in Hin. revert Hin. vm_compute.
  intros [H | [H | []]]; discriminate H.
Qed.

(** C3 (as amended).  In a run of [main], let the first [j] epochs have
    completed and let the next one complete, with [vl] the validation loss
    it appends.  The epoch appends one entry to each of the three sequences
    of the history in memory and leaves the hyperparameters alone.  If [vl]
    is strictly below the marker (a new best model), the epoch writes the
    best snapshot and the best checkpoint, the snapshot being the history
    as it was before the epoch, without the entries of the epoch; if [vl]
    is not strictly below the marker, the epoch writes nothing.  If the
    epoch was the last one, [main] returns after writing the final history,
    which holds the entries of all epochs, and the final model. *)
Theorem history_written_on_best_and_at_end
        (B : Backend) (w : world) (rng : entropy) (args : Args.t)
        (s0 s s' : run_state B) (train_loader val_loader : DataLoader)
        (j : nat) :
  main_setup B w rng args = Ok (s0, train_loader, val_loader) ->
  main_loop w rng args train_loader val_loader s0 (seq 0 j) = Ok s ->
  main_epoch w rng args train_loader val_loader s j = Ok s' ->
  exists tl vl ps,
    hist_train (history s') = hist_train (history s) ++ [tl]
    /\ hist_val (history s') = hist_val (history s) ++ [vl]
    /\ hist_psnr (history s') = hist_psnr (history s) ++ [ps]
    /\ hist_model (history s') = hist_model (history s)
    /\ ((vl < best_val_loss s)%Q ->
        disk s'
        = (path_join (Args.log_dir args) "best_model.npy",
           Pickled B (history s))
          :: (path_join (Args.log_dir args) "best_model.pt",
              SavedModel B (weights (net s')))
          :: disk s)
    /\ (~ (vl < best_val_loss s)%Q -> disk s' = disk s)
    /\ (disk s' <> disk s <-> (vl < best_val_loss s)%Q)
    /\ (S j = Args.epochs args ->
        main B w rng args = Ok (save_final args s')
        /\ disk (save_final args s')
           = (path_join (Args.log_dir args) "final_model.npy",
              Pickled B (history s'))
             :: (path_join (Args.log_dir args) "final_model.pt",
                 SavedModel B (weights (net s')))
             :: disk s'
        /\ length (hist_train (history s')) = Args.epochs args
        /\ length (hist_val (history s')) = Args.epochs args
        /\ length (hist_psnr (history s')) = Args.epochs args).
Proof.
  intros Hsetup Hloop Hbody.
  pose proof Hsetup as Hinv.
  apply main_setup_inv in Hinv as (_ & Ht0 & Hv0 & Hp0 & _).
  pose proof Hloop as Hlen. unfold main_loop in Hlen.
  apply epochs_loop_invariant in Hlen as (_ & _ & Ht & Hv & Hp).
  rewrite Ht0, Hv0, Hp0, length_seq in *. simpl in Ht, Hv, Hp.
  pose proof Hbody as Hend. unfold main_epoch in Hend.
  apply epoch_body_end in Hend as (st & pos & tl & vl & ps & Hs').
  exists tl, vl, ps.
  assert (history s'
          = {| hist_model := hist_model (history s);
               hist_train := hist_train (history s) ++ [tl];
               hist_val := hist_val (history s) ++ [vl];
               hist_psnr := hist_psnr (history s) ++ [ps] |}) as Hh
      by (rewrite Hs', end_of_epoch_history; reflexivity).
  assert (disk s'
          = if Qltb vl (best_val_loss s)
            then (path_join (Args.log_dir args) "best_model.npy",
                  Pickled B (history s))
                 :: (path_join (Args.log_dir args) "best_model.pt",
                     SavedModel B (weights (net s')))
                 :: disk s
            else disk s) as Hd.
  { rewrite Hs', end_of_epoch_disk.
    destruct (end_of_epoch_net (Args.log_dir args) (with_net s st pos) tl vl ps)
      as (-> & _).
    reflexivity. }
  do 4 (split; [rewrite Hh; reflexivity|]).
  split; [|split; [|split]].
  - intros Hlt. apply Qltb_lt in Hlt. rewrite Hlt in Hd. exact Hd.
  - intros Hnlt. destruct (Qltb vl (best_val_loss s)) eqn:E; [|exact Hd].
    exfalso. apply Hnlt, Qltb_lt, E.
  - destruct (Qltb vl (best_val_loss s)) eqn:E.
    + apply Qltb_lt in E. split; [intros _; exact E|].
      intros _. rewrite Hd. apply cons2_neq.
    + apply Qltb_ge in E. split; [intros Hne; congruence|].
      intros Hlt. exfalso. exact (Qlt_not_le _ _ Hlt E).
  - intros Hlast. split; [|split; [reflexivity|]].
    + unfold main. rewrite Hsetup. simpl. rewrite <- Hlast.
      rewrite seq_S. unfold main_loop in *. rewrite epochs_loop_app.
      rewrite Hloop. simpl. unfold main_epoch in Hbody. rewrite Hbody.
      reflexivity.
    + rewrite Hh. simpl. rewrite !length_app, Ht, Hv, Hp. simpl. lia.
Qed.

Lemma history_written_on_best_and_at_end_witness :
  main Toy.near Toy.world0 Toy.rng0 (Toy.args0 2 2)
  = Ok (save_final (Toy.args0 2 2) Toy.state2)
  /\ length (hist_val (history Toy.state2)) = 2
  /\ disk Toy.state2 <> disk Toy.state1.
Proof.
  destruct (@history_written_on_best_and_at_end
              Toy.near Toy.world0 Toy.rng0 (Toy.args0 2 2)
              (Toy.state0 (1 # 2)) Toy.state1 Toy.state2
              Toy.train_loader Toy.val_loader 1)
    as (tl & vl & ps & _ & Hval & _ & _ & Hbest & _ & _ & Hlast).
  - reflexivity.
  - exact toy_first_range.
  - exact toy_second_epoch.
  - destruct (Hlast eq_refl) as (Hmain & _ & _ & Hv & _).
    split; [exact Hmain|]. split; [exact Hv|].
    assert (vl < best_val_loss Toy.state1)%Q as Hlt.
    { vm_compute in Hval. inversion Hval; subst vl.
      vm_compute. reflexivity. }
    rewrite (Hbest Hlt). apply cons2_neq.
Defined.

(** C4, as stated, fails.  In the run of the concrete instance the
    training loader that [main_setup] builds delivers the patches in one
    order in the first epoch and in another order in the second: the
    sampler of a shuffling loader draws a fresh permutation of the indices
    at every pass. *)
Lemma train_order_differs_between_epochs :
  main_setup Toy.near Toy.world0 Toy.rng0 (Toy.args0 2 2)
  = Ok (Toy.state0 (1 # 2), Toy.train_loader, Toy.val_loader)
  /\ shuffle Toy.train_loader = true
  /\ DataLoader_iter Toy.world0 Toy.train_loader (randperm Toy.rng0 0)
     = Ok [[[3 # 4; 1 # 2]; [1; 0]]; [[1 # 2; 1 # 4]]]%Q
  /\ DataLoader_iter Toy.world0 Toy.train_loader (randperm Toy.rng0 1)
     = Ok [[[1 # 2; 1 # 4]; [1; 0]]; [[3 # 4; 1 # 2]]]%Q
  /\ DataLoader_iter Toy.world0 Toy.train_loader (randperm Toy.rng0 0)
     <> DataLoader_iter Toy.world0 Toy.train_loader (randperm Toy.rng0 1).
Proof.
  split; [reflexivity|]. split; [reflexivity|].
  split; [reflexivity|]. split; [reflexivity|].
  vm_compute. discriminate.
Qed.

(** C4 (as amended).  The loaders that [main_setup] builds hold the key
    lists shuffled once, at construction of the accessors; an epoch reads
    the loaders and cannot change them.  The validation loader does not
    shuffle: it delivers the same batches in every epoch, the patches in
    the order of its key list.  The training loader shuffles: in each epoch
    it delivers the patches in the order of the index permutation drawn for
    that epoch, applied to its key list, so the delivery order can differ
    from one epoch to the next. *)
Theorem keys_shuffled_once_train_order_redrawn
        (B : Backend) (w : world) (rng : entropy) (args : Args.t)
        (s0 : run_state B) (train_loader val_loader : DataLoader) :
  main_setup B w rng args = Ok (s0, train_loader, val_loader) ->
  (exists train_file val_file,
      h5_open w (Args.train_set args) = Ok train_file
      /\ h5_open w (Args.val_set args) = Ok val_file
      /\ keys (dataset train_loader) = np_shuffle rng 0 (map fst train_file)
      /\ keys (dataset val_loader) = np_shuffle rng 1 (map fst val_file))
  /\ shuffle train_loader = true
  /\ shuffle val_loader = false
  /\ (forall e1 e2,
         DataLoader_iter w val_loader (randperm rng e1)
         = DataLoader_iter w val_loader (randperm rng e2))
  /\ (forall e batches,
         DataLoader_iter w val_loader (randperm rng e) = Ok batches ->
         mapM (Dataset_getitem w (dataset val_loader))
              (seq 0 (length (keys (dataset val_loader))))
         = Ok (concat batches))
  /\ (forall e batches,
         DataLoader_iter w train_loader (randperm rng e) = Ok batches ->
         mapM (Dataset_getitem w (dataset train_loader))
              (randperm rng e (length (keys (dataset train_loader))))
         = Ok (concat batches)).
Proof.
  intros Hsetup.
  apply main_setup_inv in Hsetup
    as ((tf & vf & Htf & Hvf & -> & ->) & _).
  split; [exists tf, vf; repeat split; assumption|].
  split; [reflexivity|]. split; [reflexivity|].
  split; [reflexivity|]. split.
  - intros e batches H. apply DataLoader_iter_order in H. exact H.
  - intros e batches H. apply DataLoader_iter_order in H. exact H.
Qed.

Lemma keys_shuffled_once_train_order_redrawn_witness :
  keys (dataset Toy.train_loader) = ["p2"; "p1"; "p0"]%string
  /\ DataLoader_iter Toy.world0 Toy.val_loader (randperm Toy.rng0 0)
     = DataLoader_iter Toy.world0 Toy.val_loader (randperm Toy.rng0 1).
Proof.
  destruct (@keys_shuffled_once_train_order_redrawn
              Toy.near Toy.world0 Toy.rng0 (Toy.args0 2 2)
              (Toy.state0 (1 # 2)) Toy.train_loader Toy.val_loader)
    as (_ & _ & _ & Hval & _).
  - reflexivity.
  - split; [reflexivity | apply Hval].
Defined.

(** C5.  The marker starts at 999, and 999 is not above every validation
    loss: with the network [far] the first epoch of the concrete run
    completes with a validation loss above 999, the marker stays at 999
    and nothing is written, so the first completed epoch saves no best
    model. *)
Theorem first_epoch_above_sentinel_saves_nothing :
  exists s1 v,
    main_setup Toy.far Toy.world0 Toy.rng0 (Toy.args0 2 1)
    = Ok (Toy.state0 40, Toy.train_loader, Toy.val_loader)
    /\ best_val_loss (Toy.state0 40) = 999%Q
    /\ main_epoch Toy.world0 Toy.rng0 (Toy.args0 2 1) Toy.train_loader
                  Toy.val_loader (Toy.state0 40) 0
       = Ok s1
    /\ hist_val (history s1) = [v]
    /\ (999 < v)%Q
    /\ best_val_loss s1 = 999%Q
    /\ disk s1 = disk (Toy.state0 40)
    /\ main Toy.far Toy.world0 Toy.rng0 (Toy.args0 2 1)
       = Ok (save_final (Toy.args0 2 1) s1)
    /\ map fst (disk (save_final (Toy.args0 2 1) s1))
       = ["logs/final_model.npy"; "logs/final_model.pt";
          "logs/model.npy"]%string.
Proof.
  exists Toy.far_state1. eexists.
  split; [reflexivity|]. split; [reflexivity|].
  split; [exact toy_far_epoch|].
  split; [reflexivity|].
  split; [vm_compute; reflexivity|].
  split; [reflexivity|].
  split; [reflexivity|].
  split; [exact toy_far_main | reflexivity].
Qed.

(** C6, as stated, fails.  A reference batch of one image and a candidate
    batch of two differ in size, and the batch PSNR returns a value. *)
Lemma psnr_of_batch_sizes_differ_returns :
  length ([[1]]%Q : tensor) <> length ([[1]; [0]]%Q : tensor)
  /\ exists v,
      psnr_of_batch (Toy.backend 1) [[1]]%Q [[1]; [0]]%Q = Ok v
      /\ (v == 1)%Q.
Proof.
  split; [discriminate|].
  eexists. split; [vm_compute; reflexivity | vm_compute; reflexivity].
Qed.

(** * Further properties of the script *)

(** ** Output paths *)




(** ** The patch store accessor *)

Lemma lookup_In_fst (A : Type) (k : string) (l : list (string * A)) :
  In k (map fst l) -> exists a, lookup k l = Some a.
Proof.
  induction l as [|[k' a] l IH]; simpl; intros H; [contradiction|].
  destruct (String.eqb k k') eqn:E; [eauto|].
  destruct H as [H | H]; [|exact (IH H)].
  subst k'. rewrite String.eqb_refl in E. discriminate.
Qed.

Lemma Dataset_init_inv (w : world) (shuffle_keys : list string -> list string)
      (fname : string) (d : Dataset) :
  Dataset_init w shuffle_keys fname = Ok d ->
  exists data,
    h5_open w fname = Ok data
    /\ d = {| file_name := fname; keys := shuffle_keys (map fst data) |}.
Proof.
  unfold Dataset_init. intros H.
  apply bind_Ok_inv in H as (data & Hd & H).
  inversion H. eauto.
Qed.

(** Reading through a key that is in the file. *)
Lemma read_key (A : Type) (data : h5file) (ks : list string) (i : nat)
      (proj : patch -> A) :
  (forall k, In k ks -> In k (map fst data)) ->
  i < length ks ->
  exists key p,
    nth_error ks i = Some key
    /\ lookup key data = Some p
    /\ bind (index ks i)
            (fun key => bind (h5_get data key) (fun example => Ok (proj example)))
       = Ok (proj p).
Proof.
  intros Hsub Hi.
  destruct (nth_error ks i) as [key|] eqn:E;
    [|apply nth_error_None in E; lia].
  destruct (lookup_In_fst key data (Hsub key (nth_error_In _ _ E))) as (p & Hp).
  exists key, p. repeat split; [exact Hp|].
  unfold index, h5_get. rewrite E. simpl. rewrite Hp. reflexivity.
Qed.

(** X3.  An accessor built over an existing store, with a key shuffle that
    permutes the keys: its length is the number of stored patches; reading
    at an index below the length returns the patch stored under the key at
    that position of the shuffled key list; reading at an index from the
    length on raises an index error. *)
Theorem Dataset_getitem_bounds
        (w : world) (shuffle_keys : list string -> list string)
        (fname : string) (d : Dataset) (data : h5file) (i : nat) :
  Permutation (shuffle_keys (map fst data)) (map fst data) ->
  h5_open w fname = Ok data ->
  Dataset_init w shuffle_keys fname = Ok d ->
  Dataset_len d = length data
  /\ (i < Dataset_len d ->
      exists key p,
        nth_error (keys d) i = Some key
        /\ lookup key data = Some p
        /\ Dataset_getitem w d i = Ok (pixels p))
  /\ (Dataset_len d <= i -> Dataset_getitem w d i = Raise IndexError).
Proof.
  intros Hperm Hopen Hinit.
  apply Dataset_init_inv in Hinit as (data' & Hopen' & ->).
  assert (data' = data) as -> by congruence.
  unfold Dataset_len, Dataset_getitem. simpl. rewrite Hopen. simpl.
  split; [|split].
  - rewrite (Permutation_length Hperm). apply length_map.
  - intros Hi.
    apply read_key; [|exact Hi].
    intros k Hk. exact (Permutation_in _ Hperm Hk).
  - intros Hi. rewrite index_ge by exact Hi. reflexivity.
Qed.

Lemma Dataset_getitem_bounds_witness :
  Dataset_len (dataset Toy.train_loader) = 3
  /\ Dataset_getitem Toy.world0 (dataset Toy.train_loader) 3 = Raise IndexError.
Proof.
  destruct (@Dataset_getitem_bounds
              Toy.world0 (np_shuffle Toy.rng0 0) "train.h5"
              (dataset Toy.train_loader)
              [("p0"%string, Toy.px [1 # 2; 1 # 4]%Q);
               ("p1"%string, Toy.px [1; 0]%Q);
               ("p2"%string, Toy.px [3 # 4; 1 # 2]%Q)] 3)
    as (Hlen & _ & Hge).
  - apply Permutation_sym, Permutation_rev.
  - reflexivity.
  - reflexivity.
  - split; [exact Hlen | apply Hge; vm_compute; reflexivity].
Defined.

(** X4.  [Dataset.shape] of such an accessor: over a store without
    patches it raises an index error; otherwise it returns the shape of
    the patch stored under the first key of the shuffled key list. *)
Theorem Dataset_shape_of_first_key
        (w : world) (shuffle_keys : list string -> list string)
        (fname : string) (d : Dataset) (data : h5file) :
  Permutation (shuffle_keys (map fst data)) (map fst data) ->
  h5_open w fname = Ok data ->
  Dataset_init w shuffle_keys fname = Ok d ->
  (data = [] -> Dataset_shape w d = Raise IndexError)
  /\ (data <> [] ->
      exists key p,
        nth_error (keys d) 0 = Some key
        /\ lookup key data = Some p
        /\ Dataset_shape w d = Ok (patch_shape p)).
Proof.
  intros Hperm Hopen Hinit.
  apply Dataset_init_inv in Hinit as (data' & Hopen' & ->).
  assert (data' = data) as -> by congruence.
  unfold Dataset_shape. simpl. rewrite Hopen. simpl.
  split.
  - intros ->. simpl in Hperm.
    apply Permutation_sym, Permutation_nil in Hperm.
    simpl. rewrite Hperm. reflexivity.
  - intros Hne.
    apply (@read_key _ data (shuffle_keys (map fst data)) 0 patch_shape).
    + intros k Hk. exact (Permutation_in _ Hperm Hk).
    + rewrite (Permutation_length Hperm), length_map.
      destruct data; [congruence | simpl; lia].
Qed.

Lemma Dataset_shape_of_first_key_witness :
  Dataset_shape Toy.world0 (dataset Toy.train_loader) = Ok (1, 1, 2).
Proof.
  destruct (@Dataset_shape_of_first_key
              Toy.world0 (np_shuffle Toy.rng0 0) "train.h5"
              (dataset Toy.train_loader)
              [("p0"%string, Toy.px [1 # 2; 1 # 4]%Q);
               ("p1"%string, Toy.px [1; 0]%Q);
               ("p2"%string, Toy.px [3 # 4; 1 # 2]%Q)])
    as (_ & Hne).
  - apply Permutation_sym, Permutation_rev.
  - reflexivity.
  - reflexivity.
  - destruct Hne as (key & p & Hk & Hp & Hs); [discriminate|].
    reflexivity.
Defined.

(** ** One pass over a loader *)

Lemma mapM_ext_in (A C : Type) (f h : A -> result C) (l : list A) :
  (forall x, In x l -> f x = h x) -> mapM f l = mapM h l.
Proof.
  induction l as [|a l IH]; intros H; simpl; [reflexivity|].
  rewrite (H a) by (left; reflexivity).
  rewrite IH by (intros x Hx; apply H; right; exact Hx).
  reflexivity.
Qed.

Lemma mapM_map (A A' C : Type) (f : A' -> result C) (h : A -> A') (l : list A) :
  mapM f (map h l) = mapM (fun x => f (h x)) l.
Proof.
  induction l as [|a l IH]; simpl; [reflexivity|].
  rewrite IH. reflexivity.
Qed.

Lemma mapM_pure (A C : Type) (h : A -> C) (l : list A) :
  mapM (fun x => Ok (h x)) l = Ok (map h l).
Proof.
  induction l as [|a l IH]; simpl; [reflexivity|].
  rewrite IH. reflexivity.
Qed.

(** Reading a list position by position reads the list. *)
Lemma mapM_index_seq (A C : Type) (f : A -> result C) (l : list A) :
  mapM (fun i => bind (index l i) f) (seq 0 (length l)) = mapM f l.
Proof.
  induction l as [|a l IH]; simpl; [reflexivity|].
  rewrite <- seq_shift, mapM_map.
  change (fun x => bind (index (a :: l) (S x)) f)
    with (fun x => bind (index l x) f).
  rewrite IH. reflexivity.
Qed.

(** Reading in another order gives the same items in that order. *)
Lemma mapM_Permutation (A C : Type) (f : A -> result C) (l l' : list A) :
  Permutation l l' ->
  forall r, mapM f l = Ok r ->
            exists r', mapM f l' = Ok r' /\ Permutation r r'.
Proof.
  induction 1 as [|x l l' _ IH|x y l|l l' l'' _ IH1 _ IH2]; intros r H.
  - exists r. split; [exact H | apply Permutation_refl].
  - simpl in H.
    apply bind_Ok_inv in H as (c & Hc & H).
    apply bind_Ok_inv in H as (cs & Hcs & H).
    inversion H; subst.
    destruct (IH cs Hcs) as (cs' & Hcs' & Hp).
    exists (c :: cs'). simpl. rewrite Hc. simpl. rewrite Hcs'.
    split; [reflexivity | constructor; exact Hp].
  - simpl in H.
    apply bind_Ok_inv in H as (cy & Hcy & H).
    apply bind_Ok_inv in H as (r1 & Hr1 & H).
    apply bind_Ok_inv in Hr1 as (cx & Hcx & Hr1).
    apply bind_Ok_inv in Hr1 as (cs & Hcs & Hr1).
    inversion Hr1; subst. inversion H; subst.
    exists (cx :: cy :: cs). simpl.
    rewrite Hcx. simpl. rewrite Hcy. simpl. rewrite Hcs.
    split; [reflexivity | apply perm_swap].
  - destruct (IH1 r H) as (r' & H' & Hp1).
    destruct (IH2 r' H') as (r'' & H'' & Hp2).
    exists r''. split; [exact H'' | eapply Permutation_trans; eassumption].
Qed.

Lemma lookup_NoDup (A : Type) (data : list (string * A)) :
  NoDup (map fst data) ->
  map (fun k => lookup k data) (map fst data)
  = map (fun kv => Some (snd kv)) data.
Proof.
  induction data as [|[k a] data IH]; simpl; intros Hnd; [reflexivity|].
  inversion Hnd as [|? ? Hnotin Hnd']; subst.
  rewrite String.eqb_refl. f_equal.
  rewrite <- (IH Hnd'). apply map_ext_in. intros k' Hk'.
  destruct (String.eqb_spec k' k) as [->|Hne]; [contradiction | reflexivity].
Qed.

(** Reading the accessor front to back gives the stored patches, in the
    order of the shuffled keys. *)
Lemma Dataset_read_all (w : world) (d : Dataset) (data : h5file) :
  h5_open w (file_name d) = Ok data ->
  Permutation (keys d) (map fst data) ->
  NoDup (map fst data) ->
  exists imgs,
    mapM (Dataset_getitem w d) (seq 0 (Dataset_len d)) = Ok imgs
    /\ Permutation imgs (map (fun kv => pixels (snd kv)) data).
Proof.
  intros Hopen Hperm Hnd.
  set (G := fun k => match lookup k data with
                     | Some p => pixels p
                     | None => []
                     end).
  exists (map G (keys d)). split.
  - unfold Dataset_len.
    rewrite (mapM_ext_in
               (Dataset_getitem w d)
               (fun i => bind (index (keys d) i)
                              (fun key => bind (h5_get data key)
                                               (fun e => Ok (pixels e))))).
    + rewrite mapM_index_seq.
      rewrite (mapM_ext_in _ (fun k => Ok (G k))); [apply mapM_pure|].
      intros k Hk.
      destruct (lookup_In_fst k data (Permutation_in _ Hperm Hk)) as (p & Hp).
      unfold h5_get, G. rewrite Hp. reflexivity.
    + intros i _. unfold Dataset_getitem. rewrite Hopen. reflexivity.
  - eapply Permutation_trans; [apply Permutation_map, Hperm|].
    replace (map G (map fst data))
      with (map (fun kv : string * patch => pixels (snd kv)) data);
      [apply Permutation_refl|].
    unfold G. rewrite <- (map_map (fun k => lookup k data)
                                  (fun o => match o with
                                            | Some p => pixels p
                                            | None => []
                                            end)).
    rewrite lookup_NoDup by exact Hnd.
    rewrite map_map. reflexivity.
Qed.

(** X5.  One pass over a loader built on an accessor of an existing store
    with distinct keys, the key shuffle and the index sampler both drawing
    permutations: the reads at the indices of the pass all succeed and
    return the stored patches, each exactly once; and whenever the pass
    completes, the examples of its batches, taken together, are the stored
    patches, each exactly once. *)
Theorem loader_pass_reads_every_patch_once
        (w : world) (shuffle_keys : list string -> list string)
        (fname : string) (d : Dataset) (data : h5file)
        (bs : nat) (sh : bool) (dl : DataLoader) (draw : nat -> list nat) :
  Permutation (shuffle_keys (map fst data)) (map fst data) ->
  NoDup (map fst data) ->
  h5_open w fname = Ok data ->
  Dataset_init w shuffle_keys fname = Ok d ->
  DataLoader_init d bs sh = Ok dl ->
  Permutation (draw (Dataset_len d)) (seq 0 (Dataset_len d)) ->
  (exists imgs,
      mapM (Dataset_getitem w d) (sampler dl draw) = Ok imgs
      /\ Permutation imgs (map (fun kv => pixels (snd kv)) data))
  /\ (forall batches,
         DataLoader_iter w dl draw = Ok batches ->
         Permutation (concat batches) (map (fun kv => pixels (snd kv)) data)).
Proof.
  intros Hperm Hnd Hopen Hinit Hdl Hdraw.
  apply Dataset_init_inv in Hinit as (data' & Hopen' & Hd).
  assert (data' = data) as -> by congruence.
  assert (dataset dl = d) as Hds
      by (unfold DataLoader_init in Hdl; destruct bs; inversion Hdl; reflexivity).
  destruct (@Dataset_read_all w d data) as (imgs0 & Hall & Hp0);
    [subst d; exact Hopen | subst d; exact Hperm | exact Hnd |].
  assert (Permutation (seq 0 (Dataset_len d)) (sampler dl draw)) as Hs.
  { unfold sampler. rewrite Hds.
    destruct (shuffle dl); [apply Permutation_sym, Hdraw | apply Permutation_refl]. }
  destruct (mapM_Permutation (Dataset_getitem w d) Hs Hall)
    as (imgs & Himgs & Hp).
  assert (Permutation imgs (map (fun kv : string * patch => pixels (snd kv)) data))
    as Himgs_perm
      by (eapply Permutation_trans; [apply Permutation_sym, Hp | exact Hp0]).
  split.
  - exists imgs. split; assumption.
  - intros batches Hit.
    apply DataLoader_iter_order in Hit. rewrite Hds in Hit.
    assert (concat batches = imgs) as -> by congruence.
    exact Himgs_perm.
Qed.

Lemma loader_pass_reads_every_patch_once_witness :
  Permutation (concat [[[1 # 2; 1 # 4]; [1; 0]]; [[3 # 4; 1 # 2]]]%Q)
              [[1 # 2; 1 # 4]; [1; 0]; [3 # 4; 1 # 2]]%Q.
Proof.
  destruct (@loader_pass_reads_every_patch_once
              Toy.world0 (np_shuffle Toy.rng0 0) "train.h5"
              (dataset Toy.train_loader)
              [("p0"%string, Toy.px [1 # 2; 1 # 4]%Q);
               ("p1"%string, Toy.px [1; 0]%Q);
               ("p2"%string, Toy.px [3 # 4; 1 # 2]%Q)]
              2 true Toy.train_loader (randperm Toy.rng0 1))
    as (_ & Hpass).
  - apply Permutation_sym, Permutation_rev.
  - repeat constructor; simpl; intros H;
      repeat (destruct H as [H | H]; [discriminate H|]); exact H.
  - reflexivity.
  - reflexivity.
  - reflexivity.
  - apply Permutation_sym, Permutation_rev.
  - apply (Hpass [[[1 # 2; 1 # 4]; [1; 0]]; [[3 # 4; 1 # 2]]]%Q).
    reflexivity.
Defined.

(** ** Batch sizes *)

Lemma batch_sampler_sizes (bs : nat) (idxs batch : list nat) :
  length batch < bs ->
  Forall (fun n => 1 <= n <= bs)
         (map (@length nat) (batch_sampler bs batch idxs))
  /\ Forall (fun n => n = bs)
            (removelast (map (@length nat) (batch_sampler bs batch idxs))).
Proof.
  revert batch. induction idxs as [|i rest IH]; intros batch Hlt; simpl.
  - destruct batch as [|b batch]; simpl; split; constructor.
    + simpl in Hlt. lia.
    + constructor.
  - assert (length (batch ++ [i]) = S (length batch)) as Hlen
        by (rewrite length_app; simpl; lia).
    destruct (Nat.eqb_spec (length (batch ++ [i])) bs) as [E|N].
    + destruct (IH [] ltac:(simpl; lia)) as (H1 & H2).
      simpl. split.
      * constructor; [lia | exact H1].
      * destruct (map (@length nat) (batch_sampler bs [] rest));
          [constructor | constructor; [exact E | exact H2]].
    + apply IH. lia.
Qed.

Lemma mapM_batch_lengths (A C : Type) (f : A -> result C)
      (ls : list (list A)) (rs : list (list C)) :
  mapM (fun l => mapM f l) ls = Ok rs ->
  map (@length C) rs = map (@length A) ls.
Proof.
  intros H. apply mapM_Forall2 in H.
  induction H as [|l r ls rs Hlr _ IH]; simpl; [reflexivity|].
  rewrite (mapM_length _ _ Hlr), IH. reflexivity.
Qed.

Lemma list_sum_const (bs : nat) (l : list nat) :
  Forall (fun n => n = bs) l -> list_sum l = bs * length l.
Proof.
  induction 1 as [|n l Hn _ IH]; simpl; [lia|].
  rewrite IH, Hn. lia.
Qed.

(** Full batches and one last batch: their number is the rounded-up
    quotient. *)
Lemma sizes_count (bs : nat) (sizes : list nat) :
  0 < bs ->
  Forall (fun n => 1 <= n <= bs) sizes ->
  Forall (fun n => n = bs) (removelast sizes) ->
  length sizes = (list_sum sizes + bs - 1) / bs.
Proof.
  intros Hbs Hall Hfull.
  destruct sizes as [|n0 sizes0] eqn:E.
  - simpl. symmetry. apply Nat.div_small. lia.
  - rewrite <- E in *.
    destruct (@exists_last _ sizes) as (l & r & ->); [rewrite E; discriminate|].
    rewrite removelast_last in Hfull.
    apply Forall_app in Hall as (_ & Hr).
    inversion Hr as [|? ? Hr1 _]; subst.
    rewrite list_sum_app, length_app, (list_sum_const Hfull). simpl.
    apply (Nat.div_unique _ _ _ (r - 1)); lia.
Qed.

(** X6.  The batches of one pass over a loader with a positive batch
    size: every batch holds at least one and at most [batch_size]
    examples, every batch but the last holds exactly [batch_size], the
    batches together hold as many examples as the sampler gave indices, and
    the number of batches (the number of steps of the epoch loop) is that
    count divided by [batch_size], rounded up. *)
Theorem loader_batch_sizes (w : world) (dl : DataLoader)
        (draw : nat -> list nat) (batches : list tensor) :
  0 < batch_size dl ->
  DataLoader_iter w dl draw = Ok batches ->
  Forall (fun n => 1 <= n <= batch_size dl) (map (@length image) batches)
  /\ Forall (fun n => n = batch_size dl)
            (removelast (map (@length image) batches))
  /\ list_sum (map (@length image) batches) = length (sampler dl draw)
  /\ length batches
     = (length (sampler dl draw) + batch_size dl - 1) / batch_size dl.
Proof.
  intros Hbs Hit.
  pose proof (DataLoader_iter_order _ _ _ Hit) as Hord.
  apply mapM_length in Hord.
  unfold DataLoader_iter in Hit. apply mapM_batch_lengths in Hit.
  destruct (@batch_sampler_sizes (batch_size dl) (sampler dl draw) [])
    as (H1 & H2); [exact Hbs|].
  rewrite <- Hit in H1, H2.
  assert (list_sum (map (@length image) batches) = length (sampler dl draw))
    as Hsum by (rewrite <- length_concat; exact Hord).
  repeat split; try assumption.
  transitivity (length (map (@length image) batches));
    [symmetry; apply length_map|].
  rewrite <- Hsum. apply sizes_count; assumption.
Qed.

Lemma loader_batch_sizes_witness :
  map (@length image) Toy.train_batches0 = [2; 1]
  /\ length Toy.train_batches0 = (3 + 2 - 1) / 2.
Proof.
  destruct (@loader_batch_sizes Toy.world0 Toy.train_loader
              (randperm Toy.rng0 0) Toy.train_batches0)
    as (_ & _ & _ & Hn).
  - simpl. lia.
  - reflexivity.
  - split; [reflexivity | exact Hn].
Defined.

(** ** Runs that end early or do nothing *)



(** The model, the history and the first file of a completed set-up. *)
Lemma main_setup_model (B : Backend) (w : world) (rng : entropy) (args : Args.t)
      (s0 : run_state B) (train_loader val_loader : DataLoader) :
  main_setup B w rng args = Ok (s0, train_loader, val_loader) ->
  exists hp,
    history s0 = {| hist_model := hp; hist_train := [];
                    hist_val := []; hist_psnr := [] |}
    /\ weights (net s0) = DnCNN_Res B hp
    /\ opt (net s0) = Adam B (DnCNN_Res B hp)
    /\ lr (net s0) = Args.lr args
    /\ rng_pos s0 = 0.
Proof.
  unfold main_setup. intros H.
  apply bind_Ok_inv in H as (_ & _ & H).
  apply bind_Ok_inv in H as (_ & _ & H).
  apply bind_Ok_inv in H as (td & _ & H).
  apply bind_Ok_inv in H as (vd & _ & H).
  apply bind_Ok_inv in H as (tl & _ & H).
  apply bind_Ok_inv in H as (vl & _ & H).
  apply bind_Ok_inv in H as (shp & _ & H).
  inversion H; subst; clear H. simpl.
  eexists. repeat split; reflexivity.
Qed.

(** X9.  A run with zero epochs whose set-up completes returns without
    training: the final history has three empty sequences, the final model
    is the freshly built network, and the files written are the initial
    history and the two final files, all under the log directory. *)
Theorem main_without_epochs
        (B : Backend) (w : world) (rng : entropy) (args : Args.t)
        (s0 : run_state B) (train_loader val_loader : DataLoader) :
  Args.epochs args = 0 ->
  main_setup B w rng args = Ok (s0, train_loader, val_loader) ->
  exists hp,
    main B w rng args = Ok (save_final args s0)
    /\ disk (save_final args s0)
       = [(path_join (Args.log_dir args) "final_model.npy",
           Pickled B {| hist_model := hp; hist_train := [];
                        hist_val := []; hist_psnr := [] |});
          (path_join (Args.log_dir args) "final_model.pt",
           SavedModel B (DnCNN_Res B hp));
          (path_join (Args.log_dir args) "model.npy",
           Pickled B {| hist_model := hp; hist_train := [];
                        hist_val := []; hist_psnr := [] |})].
Proof.
  intros Hep Hsetup.
  destruct (main_setup_model _ _ _ Hsetup) as (hp & Hh & Hw & _).
  destruct (main_setup_inv _ _ _ Hsetup) as (_ & _ & _ & _ & _ & Hd).
  exists hp. split.
  - unfold main. rewrite Hsetup. simpl. rewrite Hep. reflexivity.
  - unfold save_final. simpl. rewrite Hd, Hh, Hw. reflexivity.
Qed.

Lemma main_without_epochs_witness :
  exists hp,
    main Toy.near Toy.world0 Toy.rng0 (Toy.args0 2 0)
    = Ok (save_final (Toy.args0 2 0) (Toy.state0 (1 # 2)))
    /\ disk (save_final (Toy.args0 2 0) (Toy.state0 (1 # 2)))
       = [("logs/final_model.npy"%string,
           Pickled Toy.near {| hist_model := hp; hist_train := [];
                               hist_val := []; hist_psnr := [] |});
          ("logs/final_model.pt"%string, SavedModel Toy.near (1 # 2)%Q);
          ("logs/model.npy"%string,
           Pickled Toy.near {| hist_model := hp; hist_train := [];
                               hist_val := []; hist_psnr := [] |})].
Proof.
  apply (@main_without_epochs Toy.near Toy.world0 Toy.rng0 (Toy.args0 2 0)
           (Toy.state0 (1 # 2)) Toy.train_loader Toy.val_loader).
  - reflexivity.
  - reflexivity.
Defined.

(** ** Invariants of the main loop *)







(** ** Noise draws and the learning rate *)

Lemma normal_pos (g : nat -> Q) (std : Q) (like : tensor) (pos : nat) :
  snd (normal_ g std like pos) = pos + length (concat like).
Proof.
  revert pos. induction like as [|img rest IH]; intros pos; simpl.
  - lia.
  - specialize (IH (pos + length img)).
    destruct (normal_ g std rest (pos + length img)) as [t pos'].
    simpl in *. rewrite length_app. lia.
Qed.


Section DrawFacts.
Variable B : Backend.
Variable g : nat -> Q.
Variable noise_level : Q.

Lemma train_batch_inv (st st' : net_state B) (pos pos' : nat) (data : tensor)
      (loss : Q) :
  train_batch g noise_level st pos data = Ok (st', pos', loss) ->
  pos' = pos + length (concat data)
  /\ lr st' = lr st /\ training st' = training st.
Proof.
  unfold train_batch.
  pose proof (normal_pos g noise_level data pos) as Hpos.
  destruct (normal_ g noise_level data pos) as [noise p1]. simpl in Hpos.
  intros H.
  apply bind_Ok_inv in H as (noisy & _ & H).
  apply bind_Ok_inv in H as (sse & _ & H).
  destruct (adam_step B (opt st) (lr st) (weights st) _) as [w' o'].
  inversion H; subst. repeat split; reflexivity.
Qed.


Lemma train_run_inv (st st' : net_state B) (pos pos' : nat)
      (batches : list tensor) (losses : list Q) :
  train_run g noise_level st pos batches losses st' pos' ->
  pos' = pos + length (concat (concat batches))
  /\ lr st' = lr st /\ training st' = training st.
Proof.
  induction 1 as [|st pos data rest st1 pos1 loss losses st' pos' Hb _ IH].
  - simpl. repeat split. lia.
  - apply train_batch_inv in Hb as (-> & Hlr & Htr).
    destruct IH as (-> & Hlr' & Htr').
    simpl. rewrite concat_app, length_app.
    repeat split; [lia | congruence | congruence].
Qed.


Variable log_dir : string.

Lemma end_of_epoch_rest (s : run_state B) (tl vl ps : Q) :
  rng_pos (end_of_epoch log_dir s tl vl ps) = rng_pos s
  /\ training (net (end_of_epoch log_dir s tl vl ps)) = training (net s)
  /\ plateau (end_of_epoch log_dir s tl vl ps)
     = fst (plateau_step B (plateau s) vl (lr (net s))).
Proof.
  unfold end_of_epoch, save_epoch_stats, scheduler_step, save_if_best.
  destruct (Qltb vl (best_val_loss s)); simpl;
    destruct (plateau_step B (plateau s) vl (lr (net s))); simpl; auto.
Qed.

Variable w : world.
Variable rng : entropy.
Variables train_loader val_loader : DataLoader.


(** X13.  In a completed epoch the learning rate is changed once, by the
    scheduler, which is fed the validation loss of the epoch and the rate
    the epoch started with: neither loop changes the rate.  The epoch leaves
    the network in evaluation mode. *)
Theorem learning_rate_set_by_scheduler (s s' : run_state B) (epoch : nat) :
  epoch_body g noise_level log_dir w rng train_loader val_loader s epoch
  = Ok s' ->
  exists vl,
    hist_val (history s') = hist_val (history s) ++ [vl]
    /\ lr (net s') = snd (plateau_step B (plateau s) vl (lr (net s)))
    /\ plateau s' = fst (plateau_step B (plateau s) vl (lr (net s)))
    /\ training (net s') = false.
Proof.
  intros H.
  apply epoch_body_inv in H
    as (tb & vb & st1 & pos1 & ttot & tn & pos2 & vtot & ptot & vn
        & tl & vl & ps & _ & Htp & _ & _ & _ & _ & _ & ->).
  exists vl.
  unfold train_pass in Htp. apply train_loop_run in Htp as (losses & Htr).
  apply train_run_inv in Htr as (_ & Hlr & _). simpl in Hlr.
  destruct (end_of_epoch_rest (with_net s (set_training false st1) pos2)
                              tl vl ps) as (_ & -> & ->).
  destruct (end_of_epoch_net log_dir (with_net s (set_training false st1) pos2)
                             tl vl ps) as (_ & _ & _ & ->).
  rewrite end_of_epoch_history. simpl. rewrite Hlr.
  repeat split; reflexivity.
Qed.

End DrawFacts.


Lemma learning_rate_set_by_scheduler_witness :
  lr (net Toy.state1) = (1 # 100)%Q /\ training (net Toy.state1) = false.
Proof.
  destruct (@learning_rate_set_by_scheduler
              Toy.near (gauss Toy.rng0)
              (Args.noise_level (Toy.args0 2 2) / 255)%Q "logs"
              Toy.world0 Toy.rng0 Toy.train_loader Toy.val_loader
              (Toy.state0 (1 # 2)) Toy.state1 0)
    as (vl & _ & Hlr & _ & Htr).
  - exact toy_first_epoch.
  - split; [exact Hlr | exact Htr].
Defined.

(** ** What a completed set-up recorded *)

(** X15.  Whenever the set-up completes, the hyperparameters it records in
    the history and builds the network from take the channel count and the
    patch size from the shape of the patch stored under the first key of the
    shuffled key list of the training store (the height; the width is not
    used, and the validation store is not consulted) and the rest from the
    command line; the marker starts at 999, the learning rate at the
    configured one, and both loaders have the configured, positive batch
    size. *)
Theorem main_setup_hyperparameters
        (B : Backend) (w : world) (rng : entropy) (args : Args.t)
        (s0 : run_state B) (train_loader val_loader : DataLoader)
        (train_file : h5file) :
  main_setup B w rng args = Ok (s0, train_loader, val_loader) ->
  h5_open w (Args.train_set args) = Ok train_file ->
  exists key p,
    nth_error (np_shuffle rng 0 (map fst train_file)) 0 = Some key
    /\ lookup key train_file = Some p
    /\ hist_model (history s0)
       = {| num_channels := fst (fst (patch_shape p));
            patch_size := snd (fst (patch_shape p));
            num_layers := Args.num_layers args;
            kernel_size := Args.filter_size args;
            stride := Args.stride args;
            num_filters := Args.num_filters args |}
    /\ weights (net s0) = DnCNN_Res B (hist_model (history s0))
    /\ best_val_loss s0 = 999%Q
    /\ lr (net s0) = Args.lr args
    /\ batch_size train_loader = Args.batch_size args
    /\ batch_size val_loader = Args.batch_size args
    /\ 0 < Args.batch_size args.
Proof.
  unfold main_setup. intros H Hopen.
  apply bind_Ok_inv in H as (_ & _ & H).
  apply bind_Ok_inv in H as (_ & _ & H).
  apply bind_Ok_inv in H as (td & Htd & H).
  apply bind_Ok_inv in H as (vd & Hvd & H).
  apply bind_Ok_inv in H as (tl & Htl & H).
  apply bind_Ok_inv in H as (vl & Hvl & H).
  apply bind_Ok_inv in H as (shp & Hshp & H).
  apply Dataset_init_inv in Htd as (tf & Htf & ->).
  assert (tf = train_file) as -> by congruence.
  unfold Dataset_shape in Hshp. simpl in Hshp.
  apply bind_Ok_inv in Hshp as (data & Hdata & Hshp).
  assert (data = train_file) as -> by congruence.
  apply bind_Ok_inv in Hshp as (key & Hkey & Hshp).
  apply bind_Ok_inv in Hshp as (p & Hp & Hshp).
  inversion Hshp; subst shp; clear Hshp.
  unfold index in Hkey.
  destruct (nth_error (np_shuffle rng 0 (map fst train_file)) 0)
    as [key'|] eqn:Ek; [|discriminate].
  inversion Hkey; subst key'.
  unfold h5_get in Hp.
  destruct (lookup key train_file) as [p'|] eqn:El; [|discriminate].
  inversion Hp; subst p'.
  unfold DataLoader_init in Htl, Hvl.
  destruct (Args.batch_size args) as [|bs] eqn:Ebs; [discriminate|].
  inversion Htl; subst tl. inversion Hvl; subst vl.
  inversion H; subst; clear H. simpl.
  exists key, p.
  destruct (patch_shape p) as [[ch ph] pw]. simpl.
  repeat split; try reflexivity; try assumption.
  apply Nat.lt_0_succ.
Qed.

Lemma main_setup_hyperparameters_witness :
  hist_model (history (Toy.state0 (1 # 2)))
  = {| num_channels := 1; patch_size := 1; num_layers := 17;
       kernel_size := 3; stride := 1; num_filters := 64 |}
  /\ best_val_loss (Toy.state0 (1 # 2)) = 999%Q.
Proof.
  destruct (@main_setup_hyperparameters
              Toy.near Toy.world0 Toy.rng0 (Toy.args0 2 2)
              (Toy.state0 (1 # 2)) Toy.train_loader Toy.val_loader
              [("p0"%string, Toy.px [1 # 2; 1 # 4]%Q);
               ("p1"%string, Toy.px [1; 0]%Q);
               ("p2"%string, Toy.px [3 # 4; 1 # 2]%Q)])
    as (key & p & _ & _ & _ & _ & Hb & _).
  - reflexivity.
  - reflexivity.
  - split; [reflexivity | exact Hb].
Defined.
